(** * ffextract-subtitles: the filter, naming and orchestration logic

    A shallow embedding of [ffextract-subtitles.py].  The script probes a
    video file with ffprobe, keeps the subtitle streams that pass a chain of
    filters, names one output file per kept stream and calls ffmpeg unless
    that file is already there.

    Conventions of the embedding.
    - A Python [str] is a [string]; one character is one code unit.  The only
      case mapping the script relies on is the search for the ASCII words
      "forc" and "sdh" in a lowered title, and Python's [str.lower] never
      turns a character outside A-Z into one of the letters of those words,
      so lowering the ASCII capitals is all the two searches can observe.
    - Python integers are [Z].
    - Paths follow [posixpath].
    - The probe output is typed after ffprobe's stream schema: a stream is a
      JSON object with optional string and integer fields, [disposition] an
      object of integer flags and [tags] an object of strings.  An absent
      key is [None]; every default of a [dict.get] is written where the
      script writes it.  Probe output that is JSON of another shape (a
      list at the top, a title that is a number) makes the script raise
      where it first reads it; such output is outside this model.
    - subprocess, json, glob and os.walk are outside the script: what they
      answer is read from an environment record [Env].
    - Effects (printing, spawning, the files on disk, exceptions) go through
      the monad [M] over [World].  Printing always succeeds.  A launched
      ffprobe writes no file; a launched ffmpeg writes at most the output
      file it is given, and the model lets it do so whether or not the
      file is there, so that what is proved about existing files rests on
      the script and not on the -n flag. *)

From Stdlib Require Import ZArith Ascii String DecimalString DecimalZ Lia Sorted.
From stdpp Require Import base option list strings gmap.

Local Open Scope Z_scope.

(** ** Python strings *)

Module PyStr.

(** The double quote character, as a one-character string. *)
Definition dquote : string := String "034"%char "".

Definition is_upper (c : ascii) : bool :=
  let n := N_of_ascii c in ((65 <=? n) && (n <=? 90))%N.

Definition lower_char (c : ascii) : ascii :=
  if is_upper c then ascii_of_N (N_of_ascii c + 32) else c.

(** [s.lower()] *)
Fixpoint lower (s : string) : string :=
  match s with
  | EmptyString => EmptyString
  | String c t => String (lower_char c) (lower t)
  end.

(** [s.startswith(p)] *)
Fixpoint startswith (p s : string) : bool :=
  match p, s with
  | EmptyString, _ => true
  | String _ _, EmptyString => false
  | String a p', String b s' => Ascii.eqb a b && startswith p' s'
  end.

(** [sub in s] on strings: [sub] occurs somewhere in [s]. *)
Fixpoint contains (sub s : string) : bool :=
  startswith sub s ||
  match s with
  | EmptyString => false
  | String _ t => contains sub t
  end.

(** [s.split(sep)] for a one-character separator. *)
Fixpoint split (sep : ascii) (s : string) : list string :=
  match s with
  | EmptyString => [EmptyString]
  | String c t =>
      if Ascii.eqb c sep then EmptyString :: split sep t
      else match split sep t with
           | h :: r => String c h :: r
           | [] => [String c EmptyString]
           end
  end.

(** [s.rstrip(chars)] *)
Fixpoint rstrip (chars : list ascii) (s : string) : string :=
  match s with
  | EmptyString => EmptyString
  | String c t =>
      match rstrip chars t with
      | EmptyString => if existsb (Ascii.eqb c) chars then EmptyString
                       else String c EmptyString
      | t' => String c t'
      end
  end.

(** [s.rfind(c)]: index of the last [c], or -1. *)
Fixpoint rfind_from (c : ascii) (s : string) (i : Z) (last : Z) : Z :=
  match s with
  | EmptyString => last
  | String a t => rfind_from c t (i + 1) (if Ascii.eqb a c then i else last)
  end.
Definition rfind (c : ascii) (s : string) : Z := rfind_from c s 0 (-1).

(** [s[:i]] and [s[i:]] for [0 <= i]. *)
Definition slice_to (s : string) (i : Z) : string :=
  String.substring 0 (Z.to_nat i) s.
Definition slice_from (s : string) (i : Z) : string :=
  String.substring (Z.to_nat i) (String.length s - Z.to_nat i) s.

(** [str(n)] on integers. *)
Definition str_int (z : Z) : string := NilEmpty.string_of_int (Z.to_int z).

(** [str(b)] on booleans. *)
Definition str_bool (b : bool) : string := if b then "True" else "False".

(** [x in l] on a list of strings. *)
Definition mem (x : string) (l : list string) : bool :=
  existsb (String.eqb x) l.

End PyStr.

(** ** posixpath *)

Module PosixPath.
Import PyStr.

(** The [while] of [genericpath._splitext]: does some character in
    [filenameIndex, filenameIndex + n) differ from the dot?  *)
Fixpoint has_non_dot (p : string) (filenameIndex : nat) (n : nat) : bool :=
  match n with
  | O => false
  | S n' =>
      match String.get filenameIndex p with
      | Some c => if Ascii.eqb c "."%char then has_non_dot p (S filenameIndex) n'
                  else true
      | None => true
      end
  end.

(** [os.path.splitext(p)] *)
Definition splitext (p : string) : string * string :=
  let sepIndex := rfind "/"%char p in
  let dotIndex := rfind "."%char p in
  if (dotIndex >? sepIndex) &&
     has_non_dot p (Z.to_nat (sepIndex + 1)) (Z.to_nat (dotIndex - (sepIndex + 1)))
  then (slice_to p dotIndex, slice_from p dotIndex)
  else (p, EmptyString).

Fixpoint all_sep (s : string) : bool :=
  match s with
  | EmptyString => true
  | String c t => Ascii.eqb c "/"%char && all_sep t
  end.

(** [os.path.split(p)] *)
Definition split (p : string) : string * string :=
  let i := rfind "/"%char p + 1 in
  let head := slice_to p i in
  let tail := slice_from p i in
  if negb (String.eqb head EmptyString) && negb (all_sep head)
  then (rstrip ["/"%char] head, tail)
  else (head, tail).

Fixpoint endswith_sep (s : string) : bool :=
  match s with
  | EmptyString => false
  | String c EmptyString => Ascii.eqb c "/"%char
  | String _ t => endswith_sep t
  end.

(** [os.path.join(a, b)] *)
Definition join (a b : string) : string :=
  if startswith "/" b then b
  else if String.eqb a EmptyString || endswith_sep a then a +:+ b
  else a +:+ "/" +:+ b.

End PosixPath.

(** ** Data model *)

(** [self.args], the parsed command line. *)
Record Args := mkArgs {
  filelist : list string;
  language : string;
  verbose : Z;
  get_sdh : bool;
  get_forced : bool;
  show_probe : bool;
  scan_only : bool }.

(** What [d.get(key, 'some word')] gives on a dictionary of integers. *)
Inductive pyval :=
| PyInt (z : Z)
| PyStr (s : string).

Definition str_pyval (v : pyval) : string :=
  match v with
  | PyInt z => PyStr.str_int z
  | PyStr s => s
  end.

(** [v == 1] *)
Definition eq_one (v : pyval) : bool :=
  match v with
  | PyInt z => z =? 1
  | PyStr _ => false
  end.

(** One entry of the [streams] array of the probe output. *)
Record Stream := mkStream {
  codec_type : option string;
  index : option Z;
  codec_name : option string;
  disposition : option (gmap string Z);
  tags : option (gmap string string) }.

(** The probe output after [json.loads]. *)
Record ProbeDoc := mkProbeDoc { streams : option (list Stream) }.

Record FFProbeResult := mkFFProbeResult {
  return_code : Z;
  json : string;
  error : string }.

(** An entry of [streams_to_extract]:
    [(index_subtitle, language, is_forced)]. *)
Definition decision : Type := Z * string * bool.

(** ** Exceptions, the world and the monad *)

Inductive exn :=
| OSError (errno : Z) (msg : string)
| UnicodeDecodeError (msg : string)
| CalledProcessError (returncode : Z) (msg : string)
| JSONDecodeError (msg : string)
| SystemExit (code : Z).

(** [str(e)] *)
Definition str_exn (e : exn) : string :=
  match e with
  | OSError _ m | UnicodeDecodeError m | CalledProcessError _ m
  | JSONDecodeError m => m
  | SystemExit c => PyStr.str_int c
  end.

Inductive node :=
| File (content : string)
| Dir.

Record World := mkWorld {
  fs : gmap string node;            (* what is on disk *)
  stdout : list string;             (* lines printed, oldest first *)
  stderr : list string;
  spawned : list (list string) }.   (* command arrays given to subprocess.run *)

(** What became of a command given to [subprocess.run]. *)
Inductive proc_outcome :=
| LaunchFailed (errno : Z) (msg : string)   (* no process: [Popen] raises OSError *)
| Undecodable (msg : string)                (* its output is not utf8 *)
| Exited (returncode : Z) (out err : string).

(** The answers of everything outside the script. *)
Record Env := mkEnv {
  spawn : World -> list string -> proc_outcome;
  (* the data a process that ran leaves in the output file it was given *)
  spawn_output : World -> list string -> option string;
  called_process_msg : list string -> Z -> string;
  json_loads : string -> exn + ProbeDoc;
  json_dumps_lines : Stream -> list string;  (* [json.dumps(s, indent=4).splitlines()] *)
  glob : World -> string -> list string;
  walk : World -> string -> list (string * list string) }.

Inductive result (A : Type) :=
| Ok (a : A)
| Raise (e : exn).
Arguments Ok {A} a.
Arguments Raise {A} e.

Definition M (A : Type) : Type := World -> result A * World.

Definition ret {A} (a : A) : M A := fun w => (Ok a, w).

Definition bind {A B} (c : M A) (k : A -> M B) : M B :=
  fun w => match c w with
           | (Ok a, w') => k a w'
           | (Raise e, w') => (Raise e, w')
           end.

Definition raise {A} (e : exn) : M A := fun w => (Raise e, w).

Notation "x <- c ;; k" := (bind c (fun x => k))
  (at level 100, c at next level, right associativity).
Notation "c >> k" := (bind c (fun _ => k))
  (at level 100, right associativity).

(** [try: c  except <caught>: handler] *)
Definition try_except {A} (c : M A) (caught : exn -> bool) (handler : exn -> M A) : M A :=
  fun w => match c w with
           | (Raise e, w') => if caught e then handler e w' else (Raise e, w')
           | r => r
           end.

Definition print (line : string) : M unit :=
  fun w => (Ok tt, mkWorld (fs w) (stdout w ++ [line]) (stderr w) (spawned w)).

Definition eprint (line : string) : M unit :=
  fun w => (Ok tt, mkWorld (fs w) (stdout w) (stderr w ++ [line]) (spawned w)).

Definition when (b : bool) (c : M unit) : M unit := if b then c else ret tt.

Fixpoint for_each {A} (l : list A) (body : A -> M unit) : M unit :=
  match l with
  | [] => ret tt
  | x :: r => body x >> for_each r body
  end.

Fixpoint fold_each {A S} (l : list A) (body : S -> A -> M S) (s : S) : M S :=
  match l with
  | [] => ret s
  | x :: r => s' <- body s x ;; fold_each r body s'
  end.

(** [os.path.exists], [os.path.isfile], [os.path.isdir] *)
Definition path_exists (p : string) : M bool :=
  fun w => (Ok (bool_decide (is_Some (fs w !! p))), w).
Definition isfile (p : string) : M bool :=
  fun w => (Ok (match fs w !! p with Some (File _) => true | _ => false end), w).
Definition isdir (p : string) : M bool :=
  fun w => (Ok (match fs w !! p with Some Dir => true | _ => false end), w).

(** ** subprocess *)

(** [subprocess.run(command_array, ..., encoding='utf8', check=check)].
    [output_file] is the file the command was told to write, if any: a
    process that ran may have put data there, whatever its exit status. *)
Definition subprocess_run (E : Env) (command_array : list string) (check : bool)
    (output_file : option string) : M (Z * string * string) :=
  fun w =>
    let launched := spawned w ++ [command_array] in
    let fs' := match output_file, spawn_output E w command_array with
               | Some f, Some data => <[f := File data]> (fs w)
               | _, _ => fs w
               end in
    match spawn E w command_array with
    | LaunchFailed errno msg =>
        (Raise (OSError errno msg), mkWorld (fs w) (stdout w) (stderr w) launched)
    | Undecodable msg =>
        (Raise (UnicodeDecodeError msg), mkWorld fs' (stdout w) (stderr w) launched)
    | Exited rc out err =>
        (if check && negb (rc =? 0)
         then Raise (CalledProcessError rc (called_process_msg E command_array rc))
         else Ok (rc, out, err),
         mkWorld fs' (stdout w) (stderr w) launched)
    end.

Definition caught_by_invokers (e : exn) : bool :=
  match e with
  | UnicodeDecodeError _ | CalledProcessError _ _ => true
  | _ => false
  end.

Definition ffprobe_command (file_path : string) : list string :=
  ["ffprobe"; "-v"; "quiet"; "-print_format"; "json"; "-show_format";
   "-show_streams"; file_path].

Definition ffprobe (E : Env) (file_path : string) : M FFProbeResult :=
  try_except
    (r <- subprocess_run E (ffprobe_command file_path) true None ;;
     let '(returncode, out, err) := r in
     ret (mkFFProbeResult returncode out err))
    caught_by_invokers
    (fun _e => ret (mkFFProbeResult 1212 "" (str_exn _e))).

Definition ffsubextract_command (file_path : string) (subtitle_index : Z)
    (fileout_path : string) : list string :=
  ["ffmpeg"; "-hide_banner"; "-loglevel"; "error"; "-n"; "-i"; file_path;
   "-map"; "0:s:" +:+ PyStr.str_int subtitle_index; fileout_path].

Definition ffsubextract (E : Env) (file_path : string) (subtitle_index : Z)
    (fileout_path : string) : M (Z * string) :=
  try_except
    (r <- subprocess_run E (ffsubextract_command file_path subtitle_index fileout_path)
            false (Some fileout_path) ;;
     let '(returncode, _, err) := r in
     ret (returncode, err))
    caught_by_invokers
    (fun _e => ret (-1, str_exn _e)).

(** ** class ExtractSubtitles *)

Import PyStr.

Definition supported_extensions : list string :=
  [".mkv"; ".mp4"; ".mov"; ".avi"; ".mpg"; ".mpeg"].
Definition supported_codec : list string := ["subrip"; "ass"].
Definition unsupported_codec : list string := ["hdmv_pgs_subtitle"; "dvd_subtitle"].

(** [if n:] on an integer. *)
Definition truthy (n : Z) : bool := negb (n =? 0).

(** The locals the loop reads off a stream. *)
Definition index_of (stream : Stream) : pyval :=
  match index stream with Some i => PyInt i | None => PyStr "unknown" end.
Definition codec_name_of (stream : Stream) : string :=
  default "unknown" (codec_name stream).
Definition forced_of (stream : Stream) : pyval :=
  match default ∅ (disposition stream) !! "forced" with
  | Some f => PyInt f
  | None => PyStr "unset"
  end.
Definition language_of (stream : Stream) : string :=
  default "unset" (default ∅ (tags stream) !! "language").
Definition title_of (stream : Stream) : string :=
  default "unset" (default ∅ (tags stream) !! "title").

(** [forced == 1 or 'forc' in title.lower()] *)
Definition is_forced (forced : pyval) (title : string) : bool :=
  eq_one forced || contains "forc" (lower title).
Definition stream_is_forced (stream : Stream) : bool :=
  is_forced (forced_of stream) (title_of stream).

(** The conditions of the four [continue]s that follow the scan-only one. *)
Definition wanted_languages (args : Args) : list string :=
  split "," (language args).
Definition ignore_codec (codec_name : string) : bool :=
  mem codec_name unsupported_codec.
Definition ignore_forced (args : Args) (is_forced : bool) : bool :=
  is_forced && negb (get_forced args).
Definition ignore_language (args : Args) (language : string) : bool :=
  negb (String.eqb language "unset") && negb (mem language (wanted_languages args)).
Definition ignore_sdh (args : Args) (title : string) : bool :=
  contains "sdh" (lower title) && negb (get_sdh args).

(** The variables the examining loop updates. *)
Record loop_state := mkLoop {
  index_subtitle : Z;
  fname_printed : bool;
  streams_to_extract : list decision }.

(** [codec_type == 'subtitle'] *)
Definition is_subtitle (stream : Stream) : bool :=
  String.eqb (default "unknown" (codec_type stream)) "subtitle".

Definition subtitle_streams (ffprobe_json : ProbeDoc) : list Stream :=
  List.filter is_subtitle (default [] (streams ffprobe_json)).

(** The output name of one entry of [streams_to_extract], [n] being
    [len(streams_to_extract)]. *)
Definition final_name (file_path : string) (n : nat) (d : decision) : string :=
  let '(index_subtitle, language, is_forced) := d in
  let foutname := fst (PosixPath.splitext file_path) in
  if Nat.eqb n 1 then foutname +:+ ".srt"
  else foutname +:+ "." +:+ language +:+ "." +:+ str_int index_subtitle +:+
       (if is_forced then ".forced" else "") +:+ ".srt".

Section ExtractSubtitles.
Variable E : Env.
Variable args : Args.

Definition subtitle_line (index_subtitle : Z) (index : pyval) (codec_name language : string)
    (forced : pyval) (is_forced : bool) (title : string) : string :=
  "  ---> subtitle " +:+ str_int (index_subtitle + 1) +:+
  " : stream_id:" +:+ str_pyval index +:+
  "  -  subtitle_id:" +:+ str_int index_subtitle +:+
  "  -  codec:" +:+ codec_name +:+
  "  -  language:" +:+ language +:+
  "  -   forced:" +:+ str_pyval forced +:+ " (" +:+ str_bool is_forced +:+ ")" +:+
  "  -  title:" +:+ title +:+ "  ".

(** One turn of [for stream in streams]. *)
Definition examine_stream (file_path : string) (n_streams : nat)
    (st : loop_state) (stream : Stream) : M loop_state :=
  let index_subtitle := index_subtitle st + 1 in
  let index := index_of stream in
  let codec_name := codec_name_of stream in
  when (negb (fname_printed st))
    (print ("Process " +:+ dquote +:+ file_path +:+ dquote +:+ " for " +:+
            str_int (Z.of_nat n_streams) +:+ " subtitle(s)")) >>
  let st := mkLoop index_subtitle true (streams_to_extract st) in
  when (show_probe args)
    (print ("  ---> json subtitle " +:+ str_int (index_subtitle + 1) +:+ " :") >>
     for_each (json_dumps_lines E stream) (fun line => print ("  " +:+ " " +:+ line))) >>
  let forced := forced_of stream in
  let language := language_of stream in
  let title := title_of stream in
  let is_forced := is_forced forced title in
  when (verbose args >? 1)
    (print (subtitle_line index_subtitle index codec_name language forced is_forced title)) >>
  if scan_only args then ret st
  else if ignore_codec codec_name then
    when (truthy (verbose args))
      (print ("  ! Ignore unsupported stream " +:+ dquote +:+ codec_name +:+ dquote)) >>
    ret st
  else if ignore_forced args is_forced then
    when (truthy (verbose args)) (print "  ! Ignore stream forced") >>
    ret st
  else if ignore_language args language then
    when (truthy (verbose args))
      (print ("  ! Ignore language " +:+ dquote +:+ language +:+ dquote)) >>
    ret st
  else if ignore_sdh args title then
    when (truthy (verbose args)) (print "  ! Ignore stream SDH") >>
    ret st
  else
    ret (mkLoop index_subtitle true
           (streams_to_extract st ++ [(index_subtitle, language, is_forced)])).

(** One turn of [for index_subtitle, language, is_forced in streams_to_extract]. *)
Definition extract_stream (file_path : string) (n : nat) (d : decision) : M unit :=
  let final_name := final_name file_path n d in
  when (verbose args >? 1) (print ("  Subtitle filename : " +:+ " " +:+ final_name)) >>
  there <- path_exists final_name ;;
  if there : bool then
    when (truthy (verbose args))
      (print ("  ! Subtitles already exists (" +:+ final_name +:+ ")"))
  else
    r <- ffsubextract E file_path (fst (fst d)) final_name ;;
    let '(code, result) := r in
    if negb (code =? 0) then
      print ("  !!! ERROR code " +:+ str_int code +:+ " : " +:+ dquote +:+ result +:+ dquote)
    else
      print ("  extract done : " +:+ " " +:+ final_name).

Definition loads (text : string) : M ProbeDoc :=
  match json_loads E text with
  | inl e => raise e
  | inr doc => ret doc
  end.

Definition get_ffmpeg_track_id (file_path : string) : M unit :=
  ffprobe_result <- ffprobe E file_path ;;
  if negb (return_code ffprobe_result =? 0) then
    print ("Error probe file " +:+ dquote +:+ file_path +:+ dquote) >>
    eprint ("  " +:+ " " +:+ error ffprobe_result)
  else
    ffprobe_json <- loads (json ffprobe_result) ;;
    let streams := subtitle_streams ffprobe_json in
    if (Nat.eqb (length streams) 0) && (verbose args >? 1) then
      print ("No subtitles for " +:+ dquote +:+ file_path +:+ dquote)
    else
      st <- fold_each streams (examine_stream file_path (length streams))
              (mkLoop (-1) false []) ;;
      for_each (streams_to_extract st)
        (extract_stream file_path (length (streams_to_extract st))).

(** [root] is [None] for a file named on the command line. *)
Definition process_movie (root : option string) (name : string) : M unit :=
  let '(root, name) :=
    match root with
    | None | Some EmptyString => PosixPath.split name
    | Some r => (r, name)
    end in
  let '(basename, ext) := PosixPath.splitext name in
  if negb (mem ext supported_extensions) then ret tt
  else get_ffmpeg_track_id (PosixPath.join root name).

Definition process : M unit :=
  for_each (filelist args) (fun glob_name =>
    let glob_name := rstrip ["013"; "010"]%char glob_name in
    names <- (fun w => (Ok (glob E w glob_name), w)) ;;
    for_each names (fun fname =>
      f <- isfile fname ;;
      if f : bool then process_movie None fname
      else
        d <- isdir fname ;;
        if d : bool then
          tree <- (fun w => (Ok (walk E w fname), w)) ;;
          for_each tree (fun '(root, files) =>
            for_each files (fun fname => process_movie (Some root) fname))
        else ret tt)).

End ExtractSubtitles.

(** ** main *)

(** What [parser.parse_args()] does: leave the program (usage error, help)
    or hand over the parsed options. *)
Inductive parse_outcome :=
| ArgparseExit (code : Z)
| Parsed (args : Args).


Definition main (E : Env) (parsed : parse_outcome) : M unit :=
  match parsed with
  | ArgparseExit code => raise (SystemExit code)
  | Parsed args =>
      if Nat.eqb (length (filelist args)) 0 then
        print "Error, need to specify directory or file  to parse" >>
        raise (SystemExit 1)
      else process E args
  end.

(** The guard at the bottom of the file: an IOError whose errno is 22 or 32
    is dropped, any other goes on. *)
Definition script (E : Env) (parsed : parse_outcome) : M unit :=
  try_except (main E parsed)
    (fun e => match e with OSError _ _ => true | _ => false end)
    (fun _e => match _e with
               | OSError errno _ =>
                   if negb (existsb (Z.eqb errno) [22; 32]) then raise _e else ret tt
               | _ => raise _e
               end).

(** The status the interpreter leaves with. *)
Definition exit_status (r : result unit) : Z :=
  match r with
  | Ok _ => 0
  | Raise (SystemExit code) => code
  | Raise _ => 1
  end.

(** ** The loops without their printing *)

(** Does the examining loop keep the stream?  The five [continue]s in the
    order the loop meets them. *)
Definition keeps (args : Args) (stream : Stream) : bool :=
  negb (scan_only args) &&
  negb (ignore_codec (codec_name_of stream)) &&
  negb (ignore_forced args (stream_is_forced stream)) &&
  negb (ignore_language args (language_of stream)) &&
  negb (ignore_sdh args (title_of stream)).

(** [streams_to_extract] after the examining loop ran over [streams],
    entered with [index_subtitle]. *)
Fixpoint select (args : Args) (streams : list Stream) (index_subtitle : Z) : list decision :=
  match streams with
  | [] => []
  | stream :: rest =>
      let index_subtitle := index_subtitle + 1 in
      (if keeps args stream
       then [(index_subtitle, language_of stream, stream_is_forced stream)]
       else []) ++ select args rest index_subtitle
  end.

Definition decisions (args : Args) (ffprobe_json : ProbeDoc) : list decision :=
  select args (subtitle_streams ffprobe_json) (-1).

(** The output names of a whole [streams_to_extract]. *)
Definition final_names (file_path : string) (ds : list decision) : list string :=
  map (final_name file_path (length ds)) ds.

(** [word] occurs in [title] whatever the case of the letters of [title]. *)
Definition occurs_ignoring_case (word title : string) : Prop :=
  exists pre mid post, title = pre +:+ mid +:+ post /\ lower mid = word.

(** ** Properties of computations *)

(** [c] returns [a], cannot fail, and does nothing but print. *)
Definition only_prints {A} (c : M A) (a : A) : Prop :=
  forall w, exists out,
    c w = (Ok a, mkWorld (fs w) (stdout w ++ out) (stderr w) (spawned w)).

(** From [w] to [w']: every file of [w] is still there with the same
    content, the commands launched in between satisfy [P], and the ffmpeg
    commands among them were given an output file that [w] does not have. *)
Definition evolves (P : list string -> Prop) (w w' : World) : Prop :=
  (forall p, is_Some (fs w !! p) -> fs w' !! p = fs w !! p) /\
  exists cmds,
    spawned w' = spawned w ++ cmds /\
    forall cmd, cmd ∈ cmds ->
      P cmd /\
      forall file_path subtitle_index fileout_path,
        cmd = ffsubextract_command file_path subtitle_index fileout_path ->
        fs w !! fileout_path = None.

Definition safe {A} (P : list string -> Prop) (c : M A) : Prop :=
  forall w, evolves P w (snd (c w)).

(** The loop variables after one turn of the examining loop. *)
Definition examined (args : Args) (st : loop_state) (stream : Stream) : loop_state :=
  mkLoop (index_subtitle st + 1) true
    (streams_to_extract st ++
     (if keeps args stream
      then [(index_subtitle st + 1, language_of stream, stream_is_forced stream)]
      else [])).

(** The same stream under another container-wide index, and the same probe
    output with the indexes [f] chooses. *)
Definition set_index (i : option Z) (stream : Stream) : Stream :=
  mkStream (codec_type stream) i (codec_name stream) (disposition stream) (tags stream).
Definition reindex (f : Stream -> option Z) (ffprobe_json : ProbeDoc) : ProbeDoc :=
  mkProbeDoc (option_map (map (fun stream => set_index (f stream) stream))
                (streams ffprobe_json)).

(** Does the character occur in the string? *)
Fixpoint has_char (c : ascii) (s : string) : bool :=
  match s with
  | EmptyString => false
  | String a t => Ascii.eqb a c || has_char c t
  end.

(** [E] with another JSON parser. *)
Definition set_json_loads (loads : string -> exn + ProbeDoc) (E : Env) : Env :=
  mkEnv (spawn E) (spawn_output E) (called_process_msg E) loads
        (json_dumps_lines E) (glob E) (walk E).

(** [c] ends without an exception, whatever the world. *)
Definition returns (c : M unit) : Prop :=
  forall w, exists w', c w = (Ok tt, w').

(** ** Sample inputs *)

Definition tag (key : string) (value : option string) : gmap string string :=
  match value with
  | Some v => {[ key := v ]}
  | None => ∅
  end.

Definition subtitle_stream (index : Z) (codec_name : string) (forced : Z)
    (language title : option string) : Stream :=
  mkStream (Some "subtitle") (Some index) (Some codec_name)
    (Some {[ "forced" := forced ]})
    (Some (tag "language" language ∪ tag "title" title)).

Definition video_stream : Stream :=
  mkStream (Some "video") (Some 0) (Some "h264") (Some {[ "forced" := 0 ]}) None.

(** French at container index 1, English at container index 2. *)
Definition fra_eng : ProbeDoc :=
  mkProbeDoc (Some [video_stream;
                    subtitle_stream 1 "subrip" 0 (Some "fra") None;
                    subtitle_stream 2 "subrip" 0 (Some "eng") None]).

(** The same with a French stream titled as one for the hard of hearing. *)
Definition fra_sdh_eng : ProbeDoc :=
  mkProbeDoc (Some [video_stream;
                    subtitle_stream 1 "subrip" 0 (Some "fra") (Some "Francais SDH");
                    subtitle_stream 2 "subrip" 0 (Some "eng") None]).

(** French, then a stream with no language tag. *)
Definition fra_untagged : ProbeDoc :=
  mkProbeDoc (Some [video_stream;
                    subtitle_stream 1 "subrip" 0 (Some "fra") None;
                    subtitle_stream 2 "subrip" 0 None None]).

(** A Blu-ray picture stream in French, then French text. *)
Definition pgs_fra : ProbeDoc :=
  mkProbeDoc (Some [subtitle_stream 3 "hdmv_pgs_subtitle" 0 (Some "fra") None;
                    subtitle_stream 4 "subrip" 0 (Some "fra") None]).

(** Every command runs and exits with status 0; the probe output parses
    to [ffprobe_json]; ffmpeg writes its output file; a pattern matches
    the file of its name. *)
Definition calm_env (ffprobe_json : ProbeDoc) : Env :=
  mkEnv (fun _ _ => Exited 0 "{}" "") (fun _ _ => Some "1") (fun _ _ => "")
        (fun _ => inr ffprobe_json) (fun _ => []) (fun _ pattern => [pattern])
        (fun _ _ => []).

(** The same with no ffprobe and no ffmpeg to launch: errno 2 is ENOENT. *)
Definition no_binary_env (ffprobe_json : ProbeDoc) : Env :=
  mkEnv (fun _ _ => LaunchFailed 2 "No such file or directory") (fun _ _ => None)
        (fun _ _ => "") (fun _ => inr ffprobe_json) (fun _ => [])
        (fun _ pattern => [pattern]) (fun _ _ => []).

(** The same where every command exits with status 1. *)
Definition failing_env (ffprobe_json : ProbeDoc) : Env :=
  mkEnv (fun _ _ => Exited 1 "" "Invalid data found") (fun _ _ => None)
        (fun _ _ => "non-zero exit status") (fun _ => inr ffprobe_json) (fun _ => [])
        (fun _ pattern => [pattern]) (fun _ _ => []).

(** The probe works and every ffmpeg exits with status 1, writing nothing. *)
Definition broken_ffmpeg_env (ffprobe_json : ProbeDoc) : Env :=
  mkEnv (fun _ command_array =>
           match command_array with
           | "ffprobe" :: _ => Exited 0 "{}" ""
           | _ => Exited 1 "" "Conversion failed!"
           end)
        (fun _ _ => None) (fun _ _ => "") (fun _ => inr ffprobe_json) (fun _ => [])
        (fun _ pattern => [pattern]) (fun _ _ => []).

Definition movie_world : World :=
  mkWorld {[ "movie.mkv" := File "" ]} [] [] [].

Definition two_movies_world : World :=
  mkWorld {[ "movie.mkv" := File ""; "other.mkv" := File "" ]} [] [] [].

(** [movie.mkv --language <language>] *)
Definition movie_args (language : string) : Args :=
  mkArgs ["movie.mkv"] language 0 false false false false.

(** ** Further properties of computations *)

(** Every run of [c] takes a world to one related to it by [R]. *)
Definition respects {A} (R : World -> World -> Prop) (c : M A) : Prop :=
  forall w, R w (snd (c w)).

(** From [w] to [w']: the files are the same and nothing but probes was
    launched. *)
Definition probes_only (w w' : World) : Prop :=
  fs w' = fs w /\
  exists cmds,
    spawned w' = spawned w ++ cmds /\
    forall cmd, cmd ∈ cmds -> exists file_path, cmd = ffprobe_command file_path.

(** [s.endswith(suffix)], as a proposition. *)
Definition ends_with (suffix s : string) : Prop :=
  exists a, s = a +:+ suffix.

(** A command of the script: a probe, or an extraction to a file named
    after its source: the source path without its extension, then some
    middle part, then .srt. *)
Definition script_command (cmd : list string) : Prop :=
  (exists file_path, cmd = ffprobe_command file_path) \/
  (exists file_path subtitle_index middle,
     cmd = ffsubextract_command file_path subtitle_index
             (fst (PosixPath.splitext file_path) +:+ middle +:+ ".srt")).

(** [args] with another file list. *)
Definition set_filelist (l : list string) (args : Args) : Args :=
  mkArgs l (language args) (verbose args) (get_sdh args) (get_forced args)
         (show_probe args) (scan_only args).

(** The part of [s] before its last [c], and the part after it; with no
    [c] in [s] the first is empty and the second is [s]. *)
Fixpoint before_last (c : ascii) (s : string) : string :=
  match s with
  | EmptyString => EmptyString
  | String a t => if has_char c t then String a (before_last c t) else EmptyString
  end.
Fixpoint after_last (c : ascii) (s : string) : string :=
  match s with
  | EmptyString => EmptyString
  | String a t =>
      if has_char c t then after_last c t
      else if Ascii.eqb a c then t else String a t
  end.

(** Is [s] made of characters of [chars] only? *)
Fixpoint only_chars (chars : list ascii) (s : string) : bool :=
  match s with
  | EmptyString => true
  | String c t => existsb (Ascii.eqb c) chars && only_chars chars t
  end.

(** Carriage return and line feed, the characters [process] strips. *)
Definition line_ends : list ascii := ["013"; "010"]%char.

(** The ffmpeg command of an entry of [streams_to_extract]. *)
Definition extract_command (file_path : string) (n : nat) (d : decision) : list string :=
  ffsubextract_command file_path (fst (fst d)) (final_name file_path n d).

(** Is the output file of the entry missing from [files]? *)
Definition output_missing (files : gmap string node) (file_path : string) (n : nat)
    (d : decision) : bool :=
  negb (bool_decide (is_Some (files !! final_name file_path n d))).

(** The number of streams of type subtitle among the first [j] entries of
    the [streams] array. *)
Definition subtitles_before (all : list Stream) (j : nat) : nat :=
  length (List.filter (fun s : Stream => bool_decide (codec_type s = Some "subtitle"))
            (take j all)).

(** ** Facts on strings *)

Module StrFacts.

Lemma str_app_cons c a b : String c a +:+ b = String c (a +:+ b).
Proof. reflexivity. Qed.

Lemma str_app_char c a : String c "" +:+ a = String c a.
Proof. reflexivity. Qed.

Lemma str_app_nil_l a : "" +:+ a = a.
Proof. reflexivity. Qed.

Lemma str_app_nil_r a : a +:+ "" = a.
Proof. induction a as [|c a IH]; [reflexivity|]. rewrite str_app_cons, IH. reflexivity. Qed.

Lemma str_app_assoc a b c : (a +:+ b) +:+ c = a +:+ b +:+ c.
Proof.
  induction a as [|x a IH]; [reflexivity|].
  rewrite !str_app_cons, IH. reflexivity.
Qed.

Lemma lower_app a b : lower (a +:+ b) = lower a +:+ lower b.
Proof.
  induction a as [|x a IH]; [reflexivity|].
  rewrite str_app_cons. simpl. rewrite IH. reflexivity.
Qed.

(** A lowered string splits where the original does. *)
Lemma lower_split s : forall a b,
  lower s = a +:+ b -> exists a' b', s = a' +:+ b' /\ lower a' = a /\ lower b' = b.
Proof.
  induction s as [|c s IH]; intros a b H.
  - destruct a; [|discriminate]. destruct b; [|discriminate].
    exists "", "". auto.
  - destruct a as [|x a].
    + exists "", (String c s). rewrite str_app_nil_l in H. auto.
    + simpl in H. rewrite str_app_cons in H. injection H as Hx Hs.
      destruct (IH _ _ Hs) as (a' & b' & -> & Ha & Hb).
      exists (String c a'), b'. simpl. rewrite Hx, Ha. auto.
Qed.

Lemma startswith_spec p : forall s,
  startswith p s = true <-> exists t, s = p +:+ t.
Proof.
  induction p as [|a p IH]; intros s; simpl.
  - split; [intros _; exists s; reflexivity | reflexivity].
  - destruct s as [|b s].
    + split; [discriminate | intros [t Ht]; discriminate].
    + rewrite andb_true_iff, Ascii.eqb_eq, IH. split.
      * intros [-> [t ->]]. exists t. reflexivity.
      * intros [t Ht]. rewrite str_app_cons in Ht. injection Ht as -> ->. eauto.
Qed.

Lemma contains_spec sub s :
  contains sub s = true <-> exists a b, s = a +:+ sub +:+ b.
Proof.
  induction s as [|c s IH].
  - simpl. rewrite orb_false_r, startswith_spec. split.
    + intros [t Ht]. exists "", t. exact Ht.
    + intros (a & b & H). destruct a; [|discriminate]. exists b. exact H.
  - simpl. rewrite orb_true_iff, startswith_spec, IH. split.
    + intros [[t Ht] | (a & b & ->)].
      * exists "", t. exact Ht.
      * exists (String c a), b. reflexivity.
    + intros (a & b & H). destruct a as [|x a].
      * left. exists b. exact H.
      * right. rewrite str_app_cons in H. injection H as _ ->. eauto.
Qed.

(** [sub in title.lower()], said on [title] itself. *)
Lemma contains_lower_spec word title :
  contains word (lower title) = true <-> occurs_ignoring_case word title.
Proof.
  rewrite contains_spec. unfold occurs_ignoring_case. split.
  - intros (a & b & H).
    destruct (lower_split _ _ _ H) as (pre & rest & -> & Hpre & Hrest).
    destruct (lower_split _ _ _ Hrest) as (mid & post & -> & Hmid & Hpost).
    eauto.
  - intros (pre & mid & post & -> & <-).
    exists (lower pre), (lower post). rewrite !lower_app. reflexivity.
Qed.

Lemma mem_spec x l : mem x l = true <-> x ∈ l.
Proof.
  unfold mem. rewrite existsb_exists, list_elem_of_In. split.
  - intros (y & Hy & Heq). apply String.eqb_eq in Heq. subst. exact Hy.
  - intros H. exists x. split; [exact H | apply String.eqb_refl].
Qed.

Lemma has_char_app c a b : has_char c (a +:+ b) = has_char c a || has_char c b.
Proof.
  induction a as [|x a IH]; [reflexivity|].
  rewrite str_app_cons. simpl. rewrite IH, orb_assoc. reflexivity.
Qed.

Lemma split_not_nil c s : split c s <> [].
Proof.
  destruct s as [|a t]; simpl; [discriminate|].
  destruct (Ascii.eqb a c); [discriminate|].
  destruct (split c t); discriminate.
Qed.

(** Splitting at a separator splits the list of fields. *)
Lemma split_app_sep c a b : split c (a +:+ String c b) = split c a ++ split c b.
Proof.
  induction a as [|x a IH].
  - rewrite str_app_nil_l. simpl. rewrite Ascii.eqb_refl. reflexivity.
  - rewrite str_app_cons. simpl. destruct (Ascii.eqb x c); [rewrite IH; reflexivity|].
    rewrite IH. pose proof (split_not_nil c a) as Hne.
    destruct (split c a); [contradiction|reflexivity].
Qed.

Lemma split_no_sep c s : has_char c s = false -> split c s = [s].
Proof.
  induction s as [|a t IH]; [reflexivity|]. simpl.
  intros H. apply orb_false_iff in H as [Ha Ht].
  rewrite Ha, (IH Ht). reflexivity.
Qed.

Lemma string_of_uint_no_dot d : has_char "." (NilEmpty.string_of_uint d) = false.
Proof. induction d; simpl; auto. Qed.

Lemma str_int_no_dot z : has_char "." (str_int z) = false.
Proof.
  unfold str_int. destruct (Z.to_int z); simpl; apply string_of_uint_no_dot.
Qed.

Lemma str_int_inj z1 z2 : str_int z1 = str_int z2 -> z1 = z2.
Proof.
  unfold str_int. intros H. apply DecimalZ.to_int_inj.
  pose proof (NilEmpty.isi (Z.to_int z1)) as H1.
  pose proof (NilEmpty.isi (Z.to_int z2)) as H2.
  rewrite H in H1. congruence.
Qed.

Lemma str_int_not_forced z : str_int z <> "forced".
Proof.
  unfold str_int. intros H.
  pose proof (NilEmpty.isi (Z.to_int z)) as H1.
  rewrite H in H1. discriminate.
Qed.

(** The fields of a split string, joined again, are the string; and no
    field holds the separator. *)
Lemma concat_split c s : String.concat (String c "") (split c s) = s.
Proof.
  induction s as [|a t IH]; [reflexivity|]. simpl.
  destruct (Ascii.eqb_spec a c) as [-> | Hne].
  - cbn [String.concat]. pose proof (split_not_nil c t) as Hnil.
    destruct (split c t) as [|h r] eqn:Hs; [contradiction|].
    rewrite IH. reflexivity.
  - pose proof (split_not_nil c t) as Hnil.
    destruct (split c t) as [|h r] eqn:Hs; [contradiction|].
    cbn [String.concat] in *. destruct r; simpl in *; rewrite <- IH; reflexivity.
Qed.

Lemma split_fields_no_sep c s : forall x, x ∈ split c s -> has_char c x = false.
Proof.
  induction s as [|a t IH]; simpl; intros x Hx.
  - apply list_elem_of_singleton in Hx as ->. reflexivity.
  - destruct (Ascii.eqb a c) eqn:Hac.
    + apply elem_of_cons in Hx as [-> | Hx]; [reflexivity | apply IH, Hx].
    + pose proof (split_not_nil c t) as Hnil.
      destruct (split c t) as [|h r]; [contradiction|].
      apply elem_of_cons in Hx as [-> | Hx].
      * simpl. rewrite Hac. apply IH. left.
      * apply IH. right. exact Hx.
Qed.

Lemma substring_all s : String.substring 0 (String.length s) s = s.
Proof. induction s as [|c s IH]; [reflexivity|]. simpl. rewrite IH. reflexivity. Qed.

(** [s[:n] + s[n:] == s] *)
Lemma substring_cut s : forall n,
  String.substring 0 n s +:+ String.substring n (String.length s - n) s = s.
Proof.
  induction s as [|c s IH]; intros n.
  - destruct n; reflexivity.
  - destruct n as [|n].
    + cbn [String.length Nat.sub String.substring]. rewrite substring_all. reflexivity.
    + cbn [String.length Nat.sub String.substring]. rewrite str_app_cons, IH. reflexivity.
Qed.

(** The two parts [os.path.splitext] returns make up the path. *)
Lemma splitext_join p :
  fst (PosixPath.splitext p) +:+ snd (PosixPath.splitext p) = p.
Proof.
  unfold PosixPath.splitext. destruct (_ && _); simpl.
  - apply substring_cut.
  - apply str_app_nil_r.
Qed.

End StrFacts.

(** ** Facts on paths *)

Module PathFacts.

Lemma length_app a b : String.length (a +:+ b) = (String.length a + String.length b)%nat.
Proof.
  induction a as [|c a IH]; [reflexivity|].
  rewrite StrFacts.str_app_cons. simpl. rewrite IH. reflexivity.
Qed.

Lemma has_char_after_last c s : has_char c (after_last c s) = false.
Proof.
  induction s as [|a t IH]; [reflexivity|]. simpl.
  destruct (has_char c t) eqn:Ht; [exact IH|].
  destruct (Ascii.eqb a c) eqn:Ha; [exact Ht|].
  simpl. rewrite Ha, Ht. reflexivity.
Qed.

Lemma after_last_none c s : has_char c s = false -> after_last c s = s.
Proof.
  destruct s as [|a t]; [reflexivity|]. simpl. intros H.
  apply orb_false_iff in H as [Ha Ht]. rewrite Ht, Ha. reflexivity.
Qed.

(** A string that holds [c] is cut at its last [c]. *)
Lemma cut_at_last c s :
  has_char c s = true -> s = before_last c s +:+ String c (after_last c s).
Proof.
  induction s as [|a t IH]; [discriminate|]. simpl. intros H.
  destruct (has_char c t) eqn:Ht.
  - rewrite StrFacts.str_app_cons, <- (IH eq_refl). reflexivity.
  - rewrite orb_false_r in H. rewrite H. apply Ascii.eqb_eq in H. subst a. reflexivity.
Qed.

Lemma rfind_from_spec c s : forall i last,
  rfind_from c s i last =
  if has_char c s then i + Z.of_nat (String.length (before_last c s)) else last.
Proof.
  induction s as [|a t IH]; intros i last; [reflexivity|].
  cbn [rfind_from has_char before_last]. rewrite IH.
  destruct (has_char c t).
  - rewrite orb_true_r. cbn [String.length]. lia.
  - rewrite orb_false_r. destruct (Ascii.eqb a c); simpl; lia.
Qed.

Lemma rfind_spec c s :
  rfind c s = if has_char c s then Z.of_nat (String.length (before_last c s)) else -1.
Proof. unfold rfind. rewrite rfind_from_spec. destruct (has_char c s); lia. Qed.

Lemma substring_skip a b : forall m,
  String.substring (String.length a) m (a +:+ b) = String.substring 0 m b.
Proof.
  induction a as [|c a IH]; intros m; [reflexivity|].
  rewrite StrFacts.str_app_cons. simpl. apply IH.
Qed.

(** [(a + b)[len(a):] == b] *)
Lemma slice_from_app a b : slice_from (a +:+ b) (Z.of_nat (String.length a)) = b.
Proof.
  unfold slice_from. rewrite Nat2Z.id, substring_skip, length_app.
  replace (String.length a + String.length b - String.length a)%nat
    with (String.length b) by lia.
  apply StrFacts.substring_all.
Qed.

(** The extension [os.path.splitext] finds is empty, or the last dot of
    the path and what follows it. *)
Lemma splitext_ext p :
  snd (PosixPath.splitext p) = "" \/
  snd (PosixPath.splitext p) = String "."%char (after_last "." p).
Proof.
  unfold PosixPath.splitext.
  destruct (rfind "." p >? rfind "/" p) eqn:Hgt; simpl; [|left; reflexivity].
  destruct (PosixPath.has_non_dot _ _ _); simpl; [|left; reflexivity].
  right. rewrite rfind_spec in *.
  destruct (has_char "." p) eqn:Hdot.
  - rewrite (cut_at_last "." p Hdot) at 1. apply slice_from_app.
  - rewrite rfind_spec in Hgt. apply Z.gtb_lt in Hgt. destruct (has_char "/" p); lia.
Qed.

(** The tail [os.path.split] finds is what follows the last slash. *)
Lemma split_tail p : snd (PosixPath.split p) = after_last "/" p.
Proof.
  unfold PosixPath.split.
  assert (H : slice_from p (rfind "/" p + 1) = after_last "/" p).
  { rewrite rfind_spec. destruct (has_char "/" p) eqn:Hs.
    - rewrite (cut_at_last "/" p Hs) at 1.
      change (String "/"%char (after_last "/" p)) with ("/" +:+ after_last "/" p).
      rewrite <- StrFacts.str_app_assoc.
      replace (Z.of_nat (String.length (before_last "/" p)) + 1)
        with (Z.of_nat (String.length (before_last "/" p +:+ "/")))
        by (rewrite length_app; simpl; lia).
      apply slice_from_app.
    - rewrite (after_last_none _ _ Hs). apply (slice_from_app "" p). }
  destruct (_ && _); simpl; exact H.
Qed.

Lemma after_last_app c a b :
  has_char c b = false ->
  after_last c (a +:+ b) = (if has_char c a then after_last c a else a) +:+ b.
Proof.
  intros Hb. induction a as [|x a IH].
  - simpl. rewrite StrFacts.str_app_nil_l. apply after_last_none, Hb.
  - rewrite StrFacts.str_app_cons. cbn [after_last has_char].
    rewrite StrFacts.has_char_app, Hb, orb_false_r.
    destruct (has_char c a) eqn:Ha.
    + rewrite orb_true_r. rewrite IH. reflexivity.
    + rewrite orb_false_r. destruct (Ascii.eqb x c); [reflexivity|].
      rewrite StrFacts.str_app_cons. reflexivity.
Qed.

(** What follows the last dot of [stem.e], for [e] without a dot. *)
Lemma after_last_dot stem e :
  has_char "." e = false -> after_last "." (stem +:+ "." +:+ e) = e.
Proof.
  intros He. rewrite <- StrFacts.str_app_assoc, (after_last_app _ _ _ He).
  rewrite StrFacts.has_char_app. simpl. rewrite orb_true_r.
  assert (H : after_last "." (stem +:+ ".") = "").
  { induction stem as [|x s IH]; [reflexivity|].
    rewrite StrFacts.str_app_cons. cbn [after_last].
    rewrite StrFacts.has_char_app. simpl. rewrite orb_true_r. exact IH. }
  rewrite H. reflexivity.
Qed.

Lemma get_app a x t : String.get (String.length a) (a +:+ String x t) = Some x.
Proof.
  induction a as [|c a IH]; [reflexivity|].
  rewrite StrFacts.str_app_cons. simpl. exact IH.
Qed.

(** The loop of [splitext] over the part [b] of [a + b + c]: it finds a
    character other than the dot exactly when [b] is not made of dots. *)
Lemma has_non_dot_app b : forall a c,
  PosixPath.has_non_dot (a +:+ b +:+ c) (String.length a) (String.length b) =
  negb (only_chars ["."%char] b).
Proof.
  induction b as [|x b IH]; intros a c; [reflexivity|].
  rewrite StrFacts.str_app_cons. cbn [String.length PosixPath.has_non_dot only_chars existsb].
  rewrite get_app. rewrite orb_false_r.
  destruct (Ascii.eqb x ".") eqn:Hx; [|reflexivity].
  cbn [andb].
  replace (a +:+ String x (b +:+ c)) with ((a +:+ String x "") +:+ b +:+ c)
    by (rewrite StrFacts.str_app_assoc; reflexivity).
  replace (S (String.length a)) with (String.length (a +:+ String x ""))
    by (rewrite length_app; simpl; lia).
  apply IH.
Qed.

Lemma before_last_app_sep c a b :
  has_char c b = false -> before_last c (a +:+ String c b) = a.
Proof.
  intros Hb. induction a as [|x a IH].
  - rewrite StrFacts.str_app_nil_l. simpl. rewrite Hb. reflexivity.
  - rewrite StrFacts.str_app_cons. cbn [before_last].
    rewrite StrFacts.has_char_app. simpl. rewrite Ascii.eqb_refl, orb_true_r.
    rewrite IH. reflexivity.
Qed.

Lemma before_last_app c a b :
  has_char c b = false -> before_last c (a +:+ b) = before_last c a.
Proof.
  intros Hb. induction a as [|x a IH].
  - rewrite StrFacts.str_app_nil_l. destruct b as [|y b]; [reflexivity|].
    simpl in *. apply orb_false_iff in Hb as [_ Hb]. rewrite Hb. reflexivity.
  - rewrite StrFacts.str_app_cons. cbn [before_last].
    rewrite StrFacts.has_char_app, Hb, orb_false_r, IH. reflexivity.
Qed.

(** [(a + b)[:len(a)] == a] *)
Lemma slice_to_app a b : slice_to (a +:+ b) (Z.of_nat (String.length a)) = a.
Proof.
  unfold slice_to. rewrite Nat2Z.id.
  induction a as [|c a IH].
  - destruct b; reflexivity.
  - rewrite StrFacts.str_app_cons. simpl. rewrite IH. reflexivity.
Qed.

(** [os.path.splitext] on [stem.e]: when [e] holds neither dot nor slash
    and the last component of [stem] has a character that is not a dot, the
    root is [stem] and the extension is [.e]. *)
Lemma splitext_stem stem e :
  has_char "." e = false -> has_char "/" e = false ->
  only_chars ["."%char] (after_last "/" stem) = false ->
  PosixPath.splitext (stem +:+ "." +:+ e) = (stem, "." +:+ e).
Proof.
  intros Hdot Hslash Hbase.
  change (stem +:+ "." +:+ e) with (stem +:+ String "."%char e).
  change ("." +:+ e) with (String "."%char e).
  set (p := stem +:+ String "."%char e).
  assert (Hpdot : has_char "." p = true).
  { unfold p. rewrite StrFacts.has_char_app. simpl. apply orb_true_r. }
  assert (Hrdot : rfind "." p = Z.of_nat (String.length stem)).
  { rewrite rfind_spec, Hpdot. unfold p. rewrite (before_last_app_sep _ _ _ Hdot). reflexivity. }
  assert (Htail : has_char "/" (String "."%char e) = false) by (simpl; exact Hslash).
  assert (Hrsep : rfind "/" p =
                  if has_char "/" stem
                  then Z.of_nat (String.length (before_last "/" stem)) else -1).
  { rewrite rfind_spec. unfold p.
    rewrite StrFacts.has_char_app, Htail, orb_false_r, (before_last_app _ _ _ Htail).
    reflexivity. }
  assert (Hcond : (rfind "." p >? rfind "/" p) &&
                  PosixPath.has_non_dot p (Z.to_nat (rfind "/" p + 1))
                    (Z.to_nat (rfind "." p - (rfind "/" p + 1))) = true).
  { rewrite Hrdot, Hrsep.
    destruct (has_char "/" stem) eqn:Hs.
    - pose proof (cut_at_last "/" stem Hs) as Hcut.
      set (bl := before_last "/" stem) in *. set (al := after_last "/" stem) in *.
      assert (Hlen : String.length stem = (String.length bl + 1 + String.length al)%nat).
      { rewrite Hcut at 1. rewrite length_app. simpl. lia. }
      apply andb_true_iff. split; [apply Z.gtb_lt; lia|].
      replace (Z.to_nat (Z.of_nat (String.length bl) + 1))
        with (String.length (bl +:+ "/")) by (rewrite length_app; simpl; lia).
      replace (Z.to_nat (Z.of_nat (String.length stem) - (Z.of_nat (String.length bl) + 1)))
        with (String.length al) by lia.
      unfold p. rewrite Hcut at 1.
      change (String "/"%char al) with ("/" +:+ al).
      rewrite <- (StrFacts.str_app_assoc bl), StrFacts.str_app_assoc.
      rewrite has_non_dot_app, Hbase. reflexivity.
    - rewrite (after_last_none _ _ Hs) in Hbase.
      apply andb_true_iff. split; [apply Z.gtb_lt; lia|].
      replace (Z.to_nat (-1 + 1)) with (String.length "") by reflexivity.
      replace (Z.to_nat (Z.of_nat (String.length stem) - (-1 + 1)))
        with (String.length stem) by lia.
      unfold p. rewrite <- (StrFacts.str_app_nil_l (stem +:+ String "."%char e)).
      rewrite has_non_dot_app, Hbase. reflexivity. }
  unfold PosixPath.splitext. rewrite Hcond, Hrdot. unfold p.
  rewrite slice_to_app, slice_from_app. reflexivity.
Qed.

End PathFacts.

(** ** The forced flag *)

(** The characters that [lower] turns into f, o, r and c are those letters
    and their capitals, and no other. *)
Lemma lower_char_forc (x : ascii) :
  (lower_char x = "f"%char <-> x = "f"%char \/ x = "F"%char) /\
  (lower_char x = "o"%char <-> x = "o"%char \/ x = "O"%char) /\
  (lower_char x = "r"%char <-> x = "r"%char \/ x = "R"%char) /\
  (lower_char x = "c"%char <-> x = "c"%char \/ x = "C"%char).
Proof.
  destruct x as [[] [] [] [] [] [] [] []];
    (repeat split; intros H; vm_compute in H;
     first [ discriminate H
           | left; reflexivity
           | right; reflexivity
           | vm_compute; reflexivity
           | destruct H as [H | H]; discriminate H ]).
Qed.

(** The strings that [lower] turns into "forc" are the four-letter strings
    f/F, o/O, r/R, c/C. *)
Lemma lower_is_forc mid :
  lower mid = "forc" <->
  exists c1 c2 c3 c4,
    mid = String c1 (String c2 (String c3 (String c4 ""))) /\
    (c1 = "f"%char \/ c1 = "F"%char) /\ (c2 = "o"%char \/ c2 = "O"%char) /\
    (c3 = "r"%char \/ c3 = "R"%char) /\ (c4 = "c"%char \/ c4 = "C"%char).
Proof.
  split.
  - destruct mid as [|c1 [|c2 [|c3 [|c4 [|c5 rest]]]]]; try discriminate.
    simpl. intros H. injection H as H1 H2 H3 H4.
    exists c1, c2, c3, c4. split; [reflexivity|].
    split; [apply (lower_char_forc c1), H1|].
    split; [apply (lower_char_forc c2), H2|].
    split; [apply (lower_char_forc c3), H3 | apply (lower_char_forc c4), H4].
  - intros (c1 & c2 & c3 & c4 & -> & H1 & H2 & H3 & H4). simpl.
    apply (lower_char_forc c1) in H1. apply (lower_char_forc c2) in H2.
    apply (lower_char_forc c3) in H3. apply (lower_char_forc c4) in H4.
    rewrite H1, H2, H3, H4. reflexivity.
Qed.

(** C1. A subtitle stream counts as forced exactly when the [forced] flag of
    its disposition is 1 or its title holds, somewhere, the four letters
    f, o, r, c in this order, each in small or capital form; with no title
    tag, exactly when the flag is 1. *)
Theorem is_forced_iff (stream : Stream) :
  (stream_is_forced stream = true <->
     default ∅ (disposition stream) !! "forced" = Some 1 \/
     exists pre c1 c2 c3 c4 post,
       title_of stream = pre +:+ String c1 (String c2 (String c3 (String c4 post))) /\
       (c1 = "f"%char \/ c1 = "F"%char) /\ (c2 = "o"%char \/ c2 = "O"%char) /\
       (c3 = "r"%char \/ c3 = "R"%char) /\ (c4 = "c"%char \/ c4 = "C"%char)) /\
  (default ∅ (tags stream) !! "title" = None ->
     (stream_is_forced stream = true <->
        default ∅ (disposition stream) !! "forced" = Some 1)).
Proof.
  assert (Hflag : eq_one (forced_of stream) = true <->
                  default ∅ (disposition stream) !! "forced" = Some 1).
  { unfold forced_of. destruct (default ∅ (disposition stream) !! "forced") as [f|]; simpl.
    - rewrite Z.eqb_eq. split; congruence.
    - split; discriminate. }
  split.
  - unfold stream_is_forced, is_forced.
    rewrite orb_true_iff, Hflag, StrFacts.contains_lower_spec.
    unfold occurs_ignoring_case. split.
    + intros [H | (pre & mid & post & Htitle & Hmid)]; [left; exact H|].
      right. apply lower_is_forc in Hmid as (c1 & c2 & c3 & c4 & -> & Hc).
      exists pre, c1, c2, c3, c4, post. split; [exact Htitle | exact Hc].
    + intros [H | (pre & c1 & c2 & c3 & c4 & post & Htitle & Hc)]; [left; exact H|].
      right. exists pre, (String c1 (String c2 (String c3 (String c4 "")))), post.
      split; [exact Htitle|]. apply lower_is_forc. exists c1, c2, c3, c4. auto.
  - intros Hno. unfold stream_is_forced, is_forced, title_of.
    rewrite Hno. simpl. rewrite orb_false_r. exact Hflag.
Qed.

Lemma is_forced_iff_witness :
  stream_is_forced (subtitle_stream 2 "subrip" 0 (Some "fra") (Some "Francais (FoRCed)")) = true /\
  (stream_is_forced (subtitle_stream 2 "subrip" 1 None None) = true <->
   default ∅ (disposition (subtitle_stream 2 "subrip" 1 None None)) !! "forced" = Some 1).
Proof.
  split.
  - apply (proj1 (is_forced_iff
                    (subtitle_stream 2 "subrip" 0 (Some "fra") (Some "Francais (FoRCed)")))).
    right. exists "Francais (", "F"%char, "o"%char, "R"%char, "C"%char, "ed)".
    split; [reflexivity|]. repeat split; auto.
  - apply (proj2 (is_forced_iff (subtitle_stream 2 "subrip" 1 None None))). reflexivity.
Defined.

Example forced_by_title :
  stream_is_forced (subtitle_stream 2 "subrip" 0 (Some "fra") (Some "Francais (FORCED)")) = true /\
  stream_is_forced (subtitle_stream 2 "subrip" 0 (Some "fra") (Some "Francais")) = false /\
  stream_is_forced (subtitle_stream 2 "subrip" 0 (Some "fra") None) = false.
Proof. repeat split; reflexivity. Qed.

(** ** The language filter *)

(** C2. The language step drops a stream exactly when its language tag is
    not "unset" and is not one of the wanted languages; a stream with the
    tag "unset" passes the step under every configuration, so that whether
    the loop keeps it is decided by the other four steps alone. *)
Theorem language_filter_iff (args : Args) (stream : Stream) :
  (ignore_language args (language_of stream) = true <->
     language_of stream <> "unset" /\ language_of stream ∉ wanted_languages args) /\
  (language_of stream = "unset" ->
     ignore_language args (language_of stream) = false /\
     keeps args stream =
       negb (scan_only args) && negb (ignore_codec (codec_name_of stream)) &&
       negb (ignore_forced args (stream_is_forced stream)) &&
       negb (ignore_sdh args (title_of stream))).
Proof.
  split.
  - unfold ignore_language.
    rewrite andb_true_iff, !negb_true_iff, String.eqb_neq.
    rewrite <- not_true_iff_false, StrFacts.mem_spec. reflexivity.
  - intros Hunset. unfold keeps, ignore_language. rewrite Hunset. simpl.
    rewrite andb_true_r. split; reflexivity.
Qed.

Lemma language_filter_iff_witness :
  ignore_language (movie_args "fra") (language_of (subtitle_stream 2 "subrip" 0 None None)) = false /\
  keeps (movie_args "fra") (subtitle_stream 2 "subrip" 0 None None) = true.
Proof.
  destruct (proj2 (language_filter_iff (movie_args "fra")
                     (subtitle_stream 2 "subrip" 0 None None)) eq_refl) as [H1 H2].
  split; [exact H1 | rewrite H2; reflexivity].
Defined.

(** ** What the examining loop keeps *)

(** An entry of [select] is a kept stream together with its position in the
    list the loop ran over. *)
Lemma select_spec args streams : forall i0 d,
  d ∈ select args streams i0 <->
  exists (k : nat) stream,
    streams !! k = Some stream /\ keeps args stream = true /\
    d = (i0 + 1 + Z.of_nat k, language_of stream, stream_is_forced stream).
Proof.
  induction streams as [|s rest IH]; intros i0 d; simpl.
  - split; [intros H; inversion H | intros (k & s & H & _); discriminate].
  - rewrite elem_of_app, IH. split.
    + intros [Hd | (k & s' & Hk & Hkeep & ->)].
      * destruct (keeps args s) eqn:Hkeep; [|inversion Hd].
        apply list_elem_of_singleton in Hd. subst d.
        exists 0%nat, s. repeat split; auto. f_equal. f_equal. lia.
      * exists (S k), s'. repeat split; auto. f_equal. f_equal. lia.
    + intros (k & s' & Hk & Hkeep & ->). destruct k as [|k]; simpl in Hk.
      * injection Hk as ->. rewrite Hkeep. left.
        apply list_elem_of_singleton. f_equal. f_equal. lia.
      * right. exists k, s'. repeat split; auto. f_equal. f_equal. lia.
Qed.

Lemma decisions_spec args ffprobe_json d :
  d ∈ decisions args ffprobe_json <->
  exists (k : nat) stream,
    subtitle_streams ffprobe_json !! k = Some stream /\ keeps args stream = true /\
    d = (Z.of_nat k, language_of stream, stream_is_forced stream).
Proof.
  unfold decisions. rewrite select_spec.
  split; intros (k & s & Hk & Hkeep & ->); exists k, s; repeat split; auto.
Qed.

(** ** Unsupported codecs *)

(** C6. A subtitle stream whose codec is hdmv_pgs_subtitle or dvd_subtitle
    is in no [streams_to_extract], whatever its tags and disposition and
    whatever the options. *)
Theorem unsupported_codec_never_selected (args : Args) (ffprobe_json : ProbeDoc)
    (k : nat) (stream : Stream) :
  subtitle_streams ffprobe_json !! k = Some stream ->
  codec_name stream = Some "hdmv_pgs_subtitle" \/ codec_name stream = Some "dvd_subtitle" ->
  forall language is_forced,
    (Z.of_nat k, language, is_forced) ∉ decisions args ffprobe_json.
Proof.
  intros Hk Hcodec language is_forced Hin.
  apply decisions_spec in Hin as (k' & s' & Hk' & Hkeep & Heq).
  injection Heq as Hkk _ _. apply Nat2Z.inj in Hkk. subst k'.
  rewrite Hk in Hk'. injection Hk' as <-.
  unfold keeps in Hkeep.
  assert (Hign : ignore_codec (codec_name_of stream) = true).
  { unfold codec_name_of. destruct Hcodec as [-> | ->]; reflexivity. }
  rewrite Hign in Hkeep. simpl in Hkeep.
  rewrite andb_false_r in Hkeep. discriminate.
Qed.

Lemma unsupported_codec_never_selected_witness :
  ((0, "fra", false) ∉ decisions (movie_args "fra") pgs_fra) /\
  decisions (movie_args "fra") pgs_fra = [(1, "fra", false)].
Proof.
  split; [|reflexivity].
  apply (unsupported_codec_never_selected (movie_args "fra") pgs_fra 0
           (subtitle_stream 3 "hdmv_pgs_subtitle" 0 (Some "fra") None)).
  - reflexivity.
  - left. reflexivity.
Defined.

(** ** Output names *)

(** The fields between dots of what follows the language in a long name. *)
Lemma split_name_tail (index_subtitle : Z) (is_forced : bool) :
  split "." (str_int index_subtitle +:+ (if is_forced then ".forced" else "") +:+ ".srt") =
  str_int index_subtitle :: (if is_forced then ["forced"; "srt"] else ["srt"]).
Proof.
  destruct is_forced.
  - change (".forced" +:+ ".srt") with (String "."%char "forced.srt").
    rewrite StrFacts.split_app_sep, (StrFacts.split_no_sep _ _ (StrFacts.str_int_no_dot _)).
    reflexivity.
  - change ("" +:+ ".srt") with (String "."%char "srt").
    rewrite StrFacts.split_app_sep, (StrFacts.split_no_sep _ _ (StrFacts.str_int_no_dot _)).
    reflexivity.
Qed.

(** Two long names that agree come from the same subtitle index. *)
Lemma final_name_inj (file_path : string) (n : nat) (d1 d2 : decision) :
  n <> 1%nat ->
  final_name file_path n d1 = final_name file_path n d2 ->
  fst (fst d1) = fst (fst d2).
Proof.
  intros Hn. destruct d1 as [[i1 l1] f1], d2 as [[i2 l2] f2]. simpl.
  apply Nat.eqb_neq in Hn. rewrite Hn. intros H.
  apply String.app_inj in H.
  rewrite !StrFacts.str_app_char in H. injection H as H.
  apply (f_equal (split ".")) in H.
  rewrite !StrFacts.split_app_sep, !split_name_tail in H.
  destruct f1, f2.
  - apply app_inj_2 in H as [_ H]; [|reflexivity].
    injection H as H. apply StrFacts.str_int_inj. exact H.
  - change (split "." l1 ++ [str_int i1; "forced"; "srt"])
      with (split "." l1 ++ [str_int i1] ++ ["forced"; "srt"]) in H.
    rewrite (assoc (++)) in H.
    apply app_inj_2 in H as [_ H]; [|reflexivity].
    injection H as H. symmetry in H. destruct (StrFacts.str_int_not_forced _ H).
  - change (split "." l2 ++ [str_int i2; "forced"; "srt"])
      with (split "." l2 ++ [str_int i2] ++ ["forced"; "srt"]) in H.
    rewrite (assoc (++)) in H.
    apply app_inj_2 in H as [_ H]; [|reflexivity].
    injection H as H. destruct (StrFacts.str_int_not_forced _ H).
  - apply app_inj_2 in H as [_ H]; [|reflexivity].
    injection H as H. apply StrFacts.str_int_inj. exact H.
Qed.

(** The subtitle indexes kept by the loop grow strictly. *)
Lemma select_indexes_above args streams : forall i0 d,
  d ∈ select args streams i0 -> i0 < fst (fst d).
Proof.
  intros i0 d Hd. apply select_spec in Hd as (k & s & _ & _ & ->). simpl. lia.
Qed.

Lemma select_indexes_NoDup args streams : forall i0,
  NoDup (map (fun d : decision => fst (fst d)) (select args streams i0)).
Proof.
  induction streams as [|s rest IH]; intros i0; simpl; [constructor|].
  assert (Hrest : forall i, i ∈ map (fun d : decision => fst (fst d))
                                   (select args rest (i0 + 1)) -> i0 + 1 < i).
  { intros i Hi. apply list_elem_of_fmap in Hi as (d & -> & Hd).
    apply select_indexes_above in Hd. exact Hd. }
  destruct (keeps args s); simpl; [|apply IH].
  constructor; [|apply IH].
  intros Hin. apply Hrest in Hin. lia.
Qed.

Lemma NoDup_map_by {A B C} (f : A -> B) (g : A -> C) (l : list A) :
  (forall x y, f x = f y -> g x = g y) ->
  NoDup (map g l) -> NoDup (map f l).
Proof.
  intros Hfg. induction l as [|a l IH]; simpl; [constructor|].
  intros Hnd. apply NoDup_cons in Hnd as [Hnotin Hnd].
  constructor; [|apply IH, Hnd].
  intros Hin. apply Hnotin.
  apply list_elem_of_fmap in Hin as (y & Hy & Hyl).
  apply list_elem_of_fmap. exists y. split; [apply Hfg, Hy | exact Hyl].
Qed.

(** The name of an entry when it is not alone. *)
Lemma final_names_many (file_path : string) (ds : list decision) (i : nat)
    (index_subtitle : Z) (language : string) (is_forced : bool) :
  length ds <> 1%nat ->
  ds !! i = Some (index_subtitle, language, is_forced) ->
  final_names file_path ds !! i =
    Some (fst (PosixPath.splitext file_path) +:+ "." +:+ language +:+ "." +:+
          str_int index_subtitle +:+ (if is_forced then ".forced" else "") +:+ ".srt").
Proof.
  intros Hne Hi. unfold final_names.
  change (map ?f ds) with (f <$> ds).
  unfold decision in *. rewrite list_lookup_fmap, Hi. simpl.
  apply Nat.eqb_neq in Hne. rewrite Hne. reflexivity.
Qed.

(** C3. For a source path [stem.extension], where the extension holds
    neither dot nor slash and the last component of [stem] is not made of
    dots only, [foutname] is [stem].  With one entry in [streams_to_extract]
    the output name is [stem.srt] and nothing else.  With two or more, the
    name of each entry is [stem], then the language, the subtitle index,
    ".forced" exactly when the entry is forced, and ".srt"; the entry
    carries the language and the forced flag of the subtitle stream at its
    index; and no two of the names are equal.  For any source path the same
    holds with [foutname], the first part [os.path.splitext] returns, in
    the place of [stem]. *)
Theorem naming_policy (args : Args) (ffprobe_json : ProbeDoc) (file_path : string) :
  let ds := decisions args ffprobe_json in
  let foutname := fst (PosixPath.splitext file_path) in
  (forall stem extension : string,
     file_path = stem +:+ "." +:+ extension ->
     has_char "." extension = false -> has_char "/" extension = false ->
     only_chars ["."%char] (after_last "/" stem) = false ->
     foutname = stem /\
     (length ds = 1%nat -> final_names file_path ds = [stem +:+ ".srt"]) /\
     ((2 <= length ds)%nat ->
      forall (i : nat) (index_subtitle : Z) (language : string) (is_forced : bool),
        ds !! i = Some (index_subtitle, language, is_forced) ->
        final_names file_path ds !! i =
          Some (stem +:+ "." +:+ language +:+ "." +:+ str_int index_subtitle +:+
                (if is_forced then ".forced" else "") +:+ ".srt"))) /\
  foutname +:+ snd (PosixPath.splitext file_path) = file_path /\
  (length ds = 1%nat -> final_names file_path ds = [foutname +:+ ".srt"]) /\
  ((2 <= length ds)%nat ->
     (forall (i : nat) (index_subtitle : Z) (language : string) (is_forced : bool),
        ds !! i = Some (index_subtitle, language, is_forced) ->
        final_names file_path ds !! i =
          Some (foutname +:+ "." +:+ language +:+ "." +:+ str_int index_subtitle +:+
                (if is_forced then ".forced" else "") +:+ ".srt") /\
        exists stream,
          subtitle_streams ffprobe_json !! Z.to_nat index_subtitle = Some stream /\
          language = language_of stream /\ is_forced = stream_is_forced stream) /\
     NoDup (final_names file_path ds)).
Proof.
  intros ds foutname.
  assert (Hspec : forall d, d ∈ ds -> exists (k : nat) stream,
            subtitle_streams ffprobe_json !! k = Some stream /\
            d = (Z.of_nat k, language_of stream, stream_is_forced stream)).
  { intros d Hd. apply decisions_spec in Hd as (k & s & Hk & _ & Heq). eauto. }
  assert (Hnd : NoDup (map (fun d : decision => fst (fst d)) ds))
    by apply select_indexes_NoDup.
  clearbody ds. subst foutname.
  assert (Hone : length ds = 1%nat ->
                 final_names file_path ds = [fst (PosixPath.splitext file_path) +:+ ".srt"]).
  { intros Hlen. unfold final_names. rewrite Hlen.
    destruct ds as [|[[i l] f] [|? ?]]; try discriminate. reflexivity. }
  split; [|split; [apply StrFacts.splitext_join|split; [exact Hone|]]].
  - intros stem extension -> Hdot Hslash Hbase.
    rewrite (PathFacts.splitext_stem stem extension Hdot Hslash Hbase) in *.
    cbn [fst] in *. split; [reflexivity|]. split; [exact Hone|].
    intros Hlen i index_subtitle language is_forced Hi.
    rewrite (final_names_many _ ds i index_subtitle language is_forced) by (lia || exact Hi).
    rewrite (PathFacts.splitext_stem stem extension Hdot Hslash Hbase). reflexivity.
  - intros Hlen.
    assert (Hne : length ds <> 1%nat) by lia.
    split.
    + intros i index_subtitle language is_forced Hi. split.
      * apply final_names_many; assumption.
      * apply list_elem_of_lookup_2 in Hi.
        apply Hspec in Hi as (k & s & Hk & Heq).
        injection Heq as -> -> ->. exists s. rewrite Nat2Z.id. auto.
    + unfold final_names.
      apply (NoDup_map_by _ (fun d : decision => fst (fst d))).
      * intros x y. apply final_name_inj, Hne.
      * exact Hnd.
Qed.

Lemma naming_policy_witness :
  final_names ("dir.d/movie" +:+ "." +:+ "mkv") (decisions (movie_args "eng") fra_eng) =
    ["dir.d/movie" +:+ ".srt"] /\
  final_names ("movie" +:+ "." +:+ "mkv") (decisions (movie_args "fra,eng") fra_eng) !! 1%nat =
    Some ("movie" +:+ "." +:+ "eng" +:+ "." +:+ str_int 1 +:+ "" +:+ ".srt") /\
  NoDup (final_names "movie.mkv" (decisions (movie_args "fra,eng") fra_eng)).
Proof.
  split; [|split].
  - destruct (naming_policy (movie_args "eng") fra_eng ("dir.d/movie" +:+ "." +:+ "mkv"))
      as (Hstem & _).
    destruct (Hstem "dir.d/movie" "mkv" eq_refl eq_refl eq_refl eq_refl) as (_ & Hone & _).
    apply Hone. reflexivity.
  - destruct (naming_policy (movie_args "fra,eng") fra_eng ("movie" +:+ "." +:+ "mkv"))
      as (Hstem & _).
    destruct (Hstem "movie" "mkv" eq_refl eq_refl eq_refl eq_refl) as (_ & _ & Hmany).
    apply (Hmany ltac:(vm_compute; lia) 1%nat 1 "eng" false). reflexivity.
  - apply (proj2 (proj2 (proj2 (naming_policy (movie_args "fra,eng") fra_eng "movie.mkv")))).
    vm_compute. lia.
Defined.

Example names_of_fra_eng :
  final_names "movie.mkv" (decisions (movie_args "fra,eng") fra_eng) =
    ["movie.fra.0.srt"; "movie.eng.1.srt"] /\
  final_names "dir.d/movie.mkv" (decisions (movie_args "eng") fra_eng) =
    ["dir.d/movie.srt"].
Proof. split; reflexivity. Qed.

(** ** A stream with no language tag *)

(** C10. When [streams_to_extract] has two entries or more, the entry of a
    kept stream that has no language tag is named with "unset" where the
    language goes. *)
Theorem unset_language_in_name (args : Args) (ffprobe_json : ProbeDoc)
    (file_path : string) (k : nat) (stream : Stream) :
  (2 <= length (decisions args ffprobe_json))%nat ->
  subtitle_streams ffprobe_json !! k = Some stream ->
  keeps args stream = true ->
  default ∅ (tags stream) !! "language" = None ->
  exists i : nat,
    decisions args ffprobe_json !! i = Some (Z.of_nat k, "unset", stream_is_forced stream) /\
    final_names file_path (decisions args ffprobe_json) !! i =
      Some (fst (PosixPath.splitext file_path) +:+ ".unset." +:+ str_int (Z.of_nat k) +:+
            (if stream_is_forced stream then ".forced" else "") +:+ ".srt").
Proof.
  intros Hlen Hk Hkeep Hlang.
  assert (Hin : (Z.of_nat k, "unset", stream_is_forced stream) ∈ decisions args ffprobe_json).
  { apply decisions_spec. exists k, stream. repeat split; auto.
    unfold language_of. rewrite Hlang. reflexivity. }
  apply list_elem_of_lookup_1 in Hin as [i Hi]. exists i. split; [exact Hi|].
  assert (Hne : length (decisions args ffprobe_json) <> 1%nat) by lia.
  rewrite (final_names_many file_path _ i _ _ _ Hne Hi). reflexivity.
Qed.

(** ** Computations that only print *)

Lemma only_prints_ret {A} (a : A) : only_prints (ret a) a.
Proof.
  intros w. exists []. unfold ret. rewrite app_nil_r. destruct w; reflexivity.
Qed.

Lemma only_prints_print line : only_prints (print line) tt.
Proof. intros w. exists [line]. reflexivity. Qed.

Lemma only_prints_bind {A B} (c : M A) (k : A -> M B) a b :
  only_prints c a -> only_prints (k a) b -> only_prints (bind c k) b.
Proof.
  intros Hc Hk w. destruct (Hc w) as [out1 H1].
  destruct (Hk (mkWorld (fs w) (stdout w ++ out1) (stderr w) (spawned w))) as [out2 H2].
  exists (out1 ++ out2). unfold bind. rewrite H1, H2. simpl.
  rewrite (assoc (++)). reflexivity.
Qed.

Lemma only_prints_when b c : only_prints c tt -> only_prints (when b c) tt.
Proof. intros Hc. destruct b; simpl; [exact Hc | apply only_prints_ret]. Qed.

Lemma only_prints_for_each {A} (l : list A) body :
  (forall x, only_prints (body x) tt) -> only_prints (for_each l body) tt.
Proof.
  intros Hbody. induction l as [|x l IH]; simpl.
  - apply only_prints_ret.
  - eapply only_prints_bind; [apply Hbody | exact IH].
Qed.

Create HintDb prints.
#[local] Hint Resolve only_prints_ret only_prints_print only_prints_when
  only_prints_for_each : prints.

(** One turn of the examining loop prints and updates the loop variables as
    [examined] says. *)
Lemma examine_stream_examined E args file_path n st stream :
  only_prints (examine_stream E args file_path n st stream) (examined args st stream).
Proof.
  unfold examine_stream, examined, keeps.
  eapply only_prints_bind; [auto with prints|].
  eapply only_prints_bind.
  { apply only_prints_when. eapply only_prints_bind; auto with prints. }
  eapply only_prints_bind; [auto with prints|].
  fold (stream_is_forced stream). simpl.
  destruct (scan_only args); simpl.
  { rewrite app_nil_r. apply only_prints_ret. }
  destruct (ignore_codec (codec_name_of stream)); simpl.
  { rewrite app_nil_r. eapply only_prints_bind; auto with prints. }
  unfold stream_is_forced.
  destruct (ignore_forced args (is_forced (forced_of stream) (title_of stream))); simpl.
  { rewrite app_nil_r. eapply only_prints_bind; auto with prints. }
  destruct (ignore_language args (language_of stream)); simpl.
  { rewrite app_nil_r. eapply only_prints_bind; auto with prints. }
  destruct (ignore_sdh args (title_of stream)); simpl.
  { rewrite app_nil_r. eapply only_prints_bind; auto with prints. }
  apply only_prints_ret.
Qed.

(** The examining loop as a whole: it prints, and leaves in
    [streams_to_extract] what [select] computes. *)
Lemma examine_loop E args file_path n streams : forall st,
  only_prints (fold_each streams (examine_stream E args file_path n) st)
    (mkLoop (index_subtitle st + Z.of_nat (length streams))
            (fname_printed st || negb (Nat.eqb (length streams) 0))
            (streams_to_extract st ++ select args streams (index_subtitle st))).
Proof.
  induction streams as [|s rest IH]; intros st.
  - simpl. rewrite Z.add_0_r, orb_false_r, app_nil_r. destruct st. apply only_prints_ret.
  - cbn [fold_each]. eapply only_prints_bind; [apply examine_stream_examined|].
    specialize (IH (examined args st s)).
    replace (mkLoop _ _ _) with
      (mkLoop (index_subtitle (examined args st s) + Z.of_nat (length rest))
         (fname_printed (examined args st s) || negb (Nat.eqb (length rest) 0))
         (streams_to_extract (examined args st s) ++
          select args rest (index_subtitle (examined args st s)))); [exact IH|].
    cbn [examined index_subtitle fname_printed streams_to_extract select length Nat.eqb negb].
    rewrite orb_true_r, <- (assoc (++)). f_equal. lia.
Qed.

(** ** Computations that never touch an existing file *)

Lemma evolves_refl P w : evolves P w w.
Proof.
  split; [reflexivity|]. exists []. rewrite app_nil_r.
  split; [reflexivity|]. intros cmd H. inversion H.
Qed.

Lemma evolves_trans P w1 w2 w3 : evolves P w1 w2 -> evolves P w2 w3 -> evolves P w1 w3.
Proof.
  intros [Hfs12 (c12 & Hs12 & Hc12)] [Hfs23 (c23 & Hs23 & Hc23)]. split.
  - intros p Hp. rewrite <- (Hfs12 p Hp). apply Hfs23. rewrite (Hfs12 p Hp). exact Hp.
  - exists (c12 ++ c23). split.
    + rewrite Hs23, Hs12, (assoc (++)). reflexivity.
    + intros cmd Hin. apply elem_of_app in Hin as [Hin | Hin].
      * apply Hc12, Hin.
      * destruct (Hc23 cmd Hin) as [HP Hout]. split; [exact HP|].
        intros fp k dest Heq. specialize (Hout fp k dest Heq).
        destruct (fs w1 !! dest) as [x|] eqn:Hd; [|reflexivity].
        rewrite (Hfs12 dest), Hd in Hout; [discriminate | rewrite Hd; eauto].
Qed.

Lemma evolves_weaken (P Q : list string -> Prop) w w' :
  (forall cmd, P cmd -> Q cmd) -> evolves P w w' -> evolves Q w w'.
Proof.
  intros HPQ [Hfs (cmds & Hs & Hc)]. split; [exact Hfs|].
  exists cmds. split; [exact Hs|].
  intros cmd Hin. destruct (Hc cmd Hin) as [HP Hout]. auto.
Qed.

Lemma safe_weaken {A} (P Q : list string -> Prop) (c : M A) :
  (forall cmd, P cmd -> Q cmd) -> safe P c -> safe Q c.
Proof. intros HPQ Hc w. eapply evolves_weaken; [exact HPQ | apply Hc]. Qed.

Lemma only_prints_safe {A} P (c : M A) a : only_prints c a -> safe P c.
Proof.
  intros Hc w. destruct (Hc w) as [out ->]. simpl.
  split; [reflexivity|]. exists []. rewrite app_nil_r.
  split; [reflexivity|]. intros cmd H. inversion H.
Qed.

Lemma safe_ret {A} P (a : A) : safe P (ret a).
Proof. intros w. apply evolves_refl. Qed.

Lemma safe_raise {A} P e : safe P (@raise A e).
Proof. intros w. apply evolves_refl. Qed.

Lemma safe_read {A} P (f : World -> A) : safe P (fun w => (Ok (f w), w)).
Proof. intros w. apply evolves_refl. Qed.

Lemma safe_print P line : safe P (print line).
Proof. eapply only_prints_safe, only_prints_print. Qed.

Lemma safe_eprint P line : safe P (eprint line).
Proof.
  intros w. simpl. split; [reflexivity|]. exists []. rewrite app_nil_r.
  split; [reflexivity|]. intros cmd H. inversion H.
Qed.

Lemma safe_bind {A B} P (c : M A) (k : A -> M B) :
  safe P c -> (forall a, safe P (k a)) -> safe P (bind c k).
Proof.
  intros Hc Hk w. unfold bind. specialize (Hc w).
  destruct (c w) as [[a|e] w1]; simpl in *; [|exact Hc].
  eapply evolves_trans; [exact Hc | apply Hk].
Qed.

Lemma safe_when P b c : safe P c -> safe P (when b c).
Proof. intros Hc. destruct b; simpl; [exact Hc | apply safe_ret]. Qed.

Lemma safe_if {A} P (b : bool) (c1 c2 : M A) :
  safe P c1 -> safe P c2 -> safe P (if b then c1 else c2).
Proof. destruct b; auto. Qed.

Lemma safe_for_each {A} P (l : list A) body :
  (forall x, x ∈ l -> safe P (body x)) -> safe P (for_each l body).
Proof.
  induction l as [|x l IH]; intros Hbody; simpl.
  - apply safe_ret.
  - apply safe_bind.
    + apply Hbody. left.
    + intros _. apply IH. intros y Hy. apply Hbody. right. exact Hy.
Qed.

Lemma safe_try_except {A} P (c : M A) caught handler :
  safe P c -> (forall e, safe P (handler e)) -> safe P (try_except c caught handler).
Proof.
  intros Hc Hh w. unfold try_except. specialize (Hc w).
  destruct (c w) as [[a|e] w1]; simpl in *; [exact Hc|].
  destruct (caught e); [|exact Hc].
  eapply evolves_trans; [exact Hc | apply Hh].
Qed.

(** Launching a command that is given no output file. *)
Lemma safe_subprocess_run_quiet (P : list string -> Prop) E command_array check :
  P command_array ->
  (forall fp k dest, command_array <> ffsubextract_command fp k dest) ->
  safe P (subprocess_run E command_array check None).
Proof.
  intros HP Hnot w. unfold subprocess_run.
  assert (forall r : result (Z * string * string),
            evolves P w (snd (r, mkWorld (fs w) (stdout w) (stderr w)
                                            (spawned w ++ [command_array])))) as Hev.
  { intros r. simpl. split; [reflexivity|]. exists [command_array].
    split; [reflexivity|]. intros cmd Hin. apply list_elem_of_singleton in Hin as ->.
    split; [exact HP|]. intros fp k dest Heq. destruct (Hnot _ _ _ Heq). }
  destruct (spawn E w command_array); apply Hev.
Qed.

(** Launching ffmpeg on an output file that is not there yet. *)
Lemma subprocess_run_fresh (P : list string -> Prop) E file_path subtitle_index
    fileout_path check w :
  P (ffsubextract_command file_path subtitle_index fileout_path) ->
  fs w !! fileout_path = None ->
  evolves P w (snd (subprocess_run E
                      (ffsubextract_command file_path subtitle_index fileout_path)
                      check (Some fileout_path) w)).
Proof.
  intros HP Hfresh. unfold subprocess_run.
  set (cmd := ffsubextract_command file_path subtitle_index fileout_path).
  assert (Hcmds : forall c, c ∈ [cmd] ->
            P c /\ forall fp k dest, c = ffsubextract_command fp k dest ->
                                     fs w !! dest = None).
  { intros c Hin. apply list_elem_of_singleton in Hin as ->.
    split; [exact HP|]. intros fp k dest Heq.
    unfold cmd, ffsubextract_command in Heq. injection Heq as _ _ <-. exact Hfresh. }
  assert (Hfs : forall p, is_Some (fs w !! p) ->
            match spawn_output E w cmd with
            | Some data => <[fileout_path := File data]> (fs w)
            | None => fs w
            end !! p = fs w !! p).
  { intros p Hp. destruct (spawn_output E w cmd); [|reflexivity].
    apply lookup_insert_ne. intros ->. rewrite Hfresh in Hp. destruct Hp; discriminate. }
  destruct (spawn E w cmd); simpl; (split; [|exists [cmd]; split; [reflexivity|exact Hcmds]]).
  - reflexivity.
  - exact Hfs.
  - exact Hfs.
Qed.

Lemma evolves_bind {A B} P (c : M A) (k : A -> M B) w :
  evolves P w (snd (c w)) -> (forall a, safe P (k a)) ->
  evolves P w (snd (bind c k w)).
Proof.
  intros Hc Hk. unfold bind.
  destruct (c w) as [[a|e] w1]; simpl in *; [|exact Hc].
  eapply evolves_trans; [exact Hc | apply Hk].
Qed.

Lemma ffprobe_not_ffmpeg file_path fp k dest :
  ffprobe_command file_path <> ffsubextract_command fp k dest.
Proof. discriminate. Qed.

Lemma safe_ffprobe (P : list string -> Prop) E file_path :
  P (ffprobe_command file_path) -> safe P (ffprobe E file_path).
Proof.
  intros HP. unfold ffprobe. apply safe_try_except.
  - apply safe_bind.
    + apply safe_subprocess_run_quiet; [exact HP | apply ffprobe_not_ffmpeg].
    + intros [[rc out] err]. apply safe_ret.
  - intros e. apply safe_ret.
Qed.

(** The world after [ffsubextract] is the world after its [subprocess.run]. *)
Lemma ffsubextract_world E file_path subtitle_index fileout_path w :
  snd (ffsubextract E file_path subtitle_index fileout_path w) =
  snd (subprocess_run E (ffsubextract_command file_path subtitle_index fileout_path)
         false (Some fileout_path) w).
Proof.
  unfold ffsubextract, try_except, bind.
  destruct (subprocess_run _ _ _ _ w) as [[[[rc out] err]|e] w1]; simpl; [reflexivity|].
  destruct (caught_by_invokers e); reflexivity.
Qed.

(** One turn of the extracting loop launches at most the ffmpeg command of
    its entry, and only when the output file is not there. *)
Lemma safe_extract_stream (P : list string -> Prop) E args file_path n d :
  P (ffsubextract_command file_path (fst (fst d)) (final_name file_path n d)) ->
  safe P (extract_stream E args file_path n d).
Proof.
  intros HP. unfold extract_stream.
  apply safe_bind; [apply safe_when, safe_print|]. intros _ w.
  unfold bind at 1. unfold path_exists.
  destruct (bool_decide (is_Some (fs w !! final_name file_path n d))) eqn:Hthere.
  - apply safe_when, safe_print.
  - apply bool_decide_eq_false in Hthere. apply eq_None_not_Some in Hthere.
    apply evolves_bind.
    + rewrite ffsubextract_world. apply subprocess_run_fresh; assumption.
    + intros [code result]. apply safe_if; apply safe_print.
Qed.

Lemma safe_get_ffmpeg_track_id E args file_path :
  safe (fun _ => True) (get_ffmpeg_track_id E args file_path).
Proof.
  unfold get_ffmpeg_track_id.
  apply safe_bind; [apply safe_ffprobe; exact I|]. intros r.
  apply safe_if.
  - apply safe_bind; [apply safe_print | intros _; apply safe_eprint].
  - apply safe_bind.
    + unfold loads. destruct (json_loads E (json r)); [apply safe_raise | apply safe_ret].
    + intros doc. apply safe_if; [apply safe_print|].
      apply safe_bind.
      * eapply only_prints_safe, examine_loop.
      * intros st. apply safe_for_each. intros d _.
        apply safe_extract_stream. exact I.
Qed.

Lemma safe_process_movie E args root name :
  safe (fun _ => True) (process_movie E args root name).
Proof.
  unfold process_movie.
  destruct (match root with
            | None | Some EmptyString => PosixPath.split name
            | Some r => (r, name)
            end) as [root' name'].
  destruct (PosixPath.splitext name') as [basename ext].
  apply safe_if; [apply safe_ret | apply safe_get_ffmpeg_track_id].
Qed.

Lemma safe_process E args : safe (fun _ => True) (process E args).
Proof.
  unfold process. apply safe_for_each. intros glob_name _.
  apply safe_bind; [apply safe_read|]. intros names.
  apply safe_for_each. intros fname _.
  apply safe_bind; [apply safe_read|]. intros f.
  apply safe_if; [apply safe_process_movie|].
  apply safe_bind; [apply safe_read|]. intros d.
  apply safe_if; [|apply safe_ret].
  apply safe_bind; [apply safe_read|]. intros tree.
  apply safe_for_each. intros [root files] _.
  apply safe_for_each. intros fname' _. apply safe_process_movie.
Qed.

Lemma safe_script E parsed : safe (fun _ => True) (script E parsed).
Proof.
  unfold script. apply safe_try_except.
  - unfold main. destruct parsed as [code|args]; [apply safe_raise|].
    apply safe_if; [|apply safe_process].
    apply safe_bind; [apply safe_print | intros _; apply safe_raise].
  - intros [errno msg| | | |]; try apply safe_raise.
    apply safe_if; [apply safe_raise | apply safe_ret].
Qed.

(** ** Subtitle indexes and the ffmpeg selector *)

(** What [get_ffmpeg_track_id] does once the probe has exited with status 0
    and its output has parsed. *)
Lemma get_ffmpeg_track_id_probed E args file_path w out err ffprobe_json :
  spawn E w (ffprobe_command file_path) = Exited 0 out err ->
  json_loads E out = inr ffprobe_json ->
  get_ffmpeg_track_id E args file_path w =
  (let streams := subtitle_streams ffprobe_json in
   if (Nat.eqb (length streams) 0) && (verbose args >? 1) then
     print ("No subtitles for " +:+ dquote +:+ file_path +:+ dquote)
   else
     st <- fold_each streams (examine_stream E args file_path (length streams))
             (mkLoop (-1) false []) ;;
     for_each (streams_to_extract st)
       (extract_stream E args file_path (length (streams_to_extract st))))
    (mkWorld (fs w) (stdout w) (stderr w) (spawned w ++ [ffprobe_command file_path])).
Proof.
  intros Hspawn Hjson.
  unfold get_ffmpeg_track_id, bind at 1, ffprobe, try_except, bind at 1, subprocess_run.
  rewrite Hspawn. simpl. unfold bind at 1, loads. rewrite Hjson. reflexivity.
Qed.

Lemma keeps_set_index args i stream : keeps args (set_index i stream) = keeps args stream.
Proof. reflexivity. Qed.

Lemma select_reindex args (f : Stream -> option Z) streams : forall i0,
  select args (map (fun stream => set_index (f stream) stream) streams) i0 =
  select args streams i0.
Proof.
  induction streams as [|s rest IH]; intros i0; simpl; [reflexivity|].
  rewrite IH. reflexivity.
Qed.

Lemma subtitle_streams_reindex f ffprobe_json :
  subtitle_streams (reindex f ffprobe_json) =
  map (fun stream => set_index (f stream) stream) (subtitle_streams ffprobe_json).
Proof.
  unfold subtitle_streams, reindex. destruct (streams ffprobe_json) as [l|]; simpl; [|reflexivity].
  induction l as [|s l IH]; simpl; [reflexivity|].
  change (is_subtitle (set_index (f s) s)) with (is_subtitle s).
  destruct (is_subtitle s); simpl; rewrite IH; reflexivity.
Qed.

Lemma is_subtitle_spec stream :
  is_subtitle stream = bool_decide (codec_type stream = Some "subtitle").
Proof.
  unfold is_subtitle. destruct (codec_type stream) as [t|]; simpl.
  - destruct (String.eqb_spec t "subtitle") as [-> | Hne].
    + symmetry. apply bool_decide_eq_true_2. reflexivity.
    + symmetry. apply bool_decide_eq_false_2. congruence.
  - reflexivity.
Qed.

Lemma filter_lookup {A} (f : A -> bool) (l : list A) : forall j x,
  l !! j = Some x -> f x = true ->
  List.filter f l !! length (List.filter f (take j l)) = Some x.
Proof.
  induction l as [|a l IH]; intros j x Hj Hx; [discriminate|].
  destruct j as [|j]; simpl in Hj.
  - injection Hj as ->. simpl. rewrite Hx. reflexivity.
  - cbn [take List.filter]. destruct (f a); simpl; apply IH; assumption.
Qed.

Lemma filter_lookup_inv {A} (f : A -> bool) (l : list A) : forall k x,
  List.filter f l !! k = Some x ->
  exists j, l !! j = Some x /\ f x = true /\ k = length (List.filter f (take j l)).
Proof.
  induction l as [|a l IH]; intros k x Hk; [discriminate|].
  cbn [List.filter] in Hk. destruct (f a) eqn:Ha.
  - destruct k as [|k]; simpl in Hk.
    + injection Hk as ->. exists 0%nat. auto.
    + destruct (IH k x Hk) as (j & Hj & Hx & ->).
      exists (S j). cbn [take List.filter]. rewrite Ha. auto.
  - destruct (IH k x Hk) as (j & Hj & Hx & ->).
    exists (S j). cbn [take List.filter]. rewrite Ha. auto.
Qed.

Lemma subtitle_streams_filter ffprobe_json :
  subtitle_streams ffprobe_json =
  List.filter (fun s : Stream => bool_decide (codec_type s = Some "subtitle"))
    (default [] (streams ffprobe_json)).
Proof. unfold subtitle_streams. apply filter_ext, is_subtitle_spec. Qed.

(** A subtitle stream of the loop is a stream of type subtitle of the probe
    output, at the position that counts the streams of that type before
    it. *)
Lemma subtitle_streams_position ffprobe_json (k : nat) stream :
  subtitle_streams ffprobe_json !! k = Some stream ->
  exists j : nat,
    default [] (streams ffprobe_json) !! j = Some stream /\
    codec_type stream = Some "subtitle" /\
    k = subtitles_before (default [] (streams ffprobe_json)) j.
Proof.
  rewrite subtitle_streams_filter. intros Hk.
  apply filter_lookup_inv in Hk as (j & Hj & Hx & ->).
  apply bool_decide_eq_true in Hx. exists j. auto.
Qed.

(** C5. Once a file is probed.  The streams the loop runs over are those of
    type subtitle and no other: a stream of that type at position [j] of
    the probe output is the subtitle stream whose position is the number
    of streams of that type before [j].  After the turn of the subtitle
    stream at position [k] the loop variable [index_subtitle] is [k].
    What the loop keeps does not depend on the [index] fields of the probe
    output.  Every command launched after the probe is an ffmpeg command
    whose selector is "0:s:" followed by the number of streams of type
    subtitle that come before a kept stream of that type. *)
Theorem extraction_addresses_by_ordinal (E : Env) (args : Args) (file_path : string)
    (w : World) (out err : string) (ffprobe_json : ProbeDoc) :
  spawn E w (ffprobe_command file_path) = Exited 0 out err ->
  json_loads E out = inr ffprobe_json ->
  let all := default [] (streams ffprobe_json) in
  let subs := subtitle_streams ffprobe_json in
  (forall stream, stream ∈ subs -> codec_type stream = Some "subtitle") /\
  (forall (j : nat) (stream : Stream),
     all !! j = Some stream -> codec_type stream = Some "subtitle" ->
     subs !! subtitles_before all j = Some stream) /\
  (forall (k : nat) (stream : Stream), subs !! k = Some stream ->
     only_prints
       (fold_each (take (S k) subs) (examine_stream E args file_path (length subs))
          (mkLoop (-1) false []))
       (mkLoop (Z.of_nat k) true (select args (take (S k) subs) (-1)))) /\
  (forall f, decisions args (reindex f ffprobe_json) = decisions args ffprobe_json) /\
  exists cmds,
    spawned (snd (get_ffmpeg_track_id E args file_path w)) =
      spawned w ++ ffprobe_command file_path :: cmds /\
    forall cmd, cmd ∈ cmds ->
      exists (j : nat) (stream : Stream) (fileout_path : string),
        all !! j = Some stream /\ codec_type stream = Some "subtitle" /\
        subs !! subtitles_before all j = Some stream /\
        keeps args stream = true /\
        cmd = ["ffmpeg"; "-hide_banner"; "-loglevel"; "error"; "-n"; "-i"; file_path;
               "-map"; "0:s:" +:+ str_int (Z.of_nat (subtitles_before all j));
               fileout_path].
Proof.
  intros Hspawn Hjson all subs. split; [|split; [|split; [|split]]].
  - intros stream Hin. apply list_elem_of_lookup_1 in Hin as [k Hk].
    destruct (subtitle_streams_position ffprobe_json k stream Hk) as (j & _ & Htype & _).
    exact Htype.
  - intros j stream Hj Htype. unfold subs, subtitles_before.
    rewrite subtitle_streams_filter. apply filter_lookup; [exact Hj|].
    apply bool_decide_eq_true_2, Htype.
  - intros k stream Hk.
    pose proof (examine_loop E args file_path (length subs) (take (S k) subs)
                  (mkLoop (-1) false [])) as H.
    cbn [index_subtitle fname_printed streams_to_extract] in H.
    assert (Hlen : length (take (S k) subs) = S k).
    { apply length_take_le. apply lookup_lt_Some in Hk. lia. }
    rewrite Hlen in H. cbn [Nat.eqb negb orb app] in H.
    replace (Z.of_nat k) with (-1 + Z.of_nat (S k)) by lia.
    exact H.
  - intros f. unfold decisions. rewrite subtitle_streams_reindex. apply select_reindex.
  - rewrite (get_ffmpeg_track_id_probed _ _ _ _ _ _ _ Hspawn Hjson).
    fold subs. cbv zeta.
    set (w1 := mkWorld (fs w) (stdout w) (stderr w) (spawned w ++ [ffprobe_command file_path])).
    destruct ((Nat.eqb (length subs) 0) && (verbose args >? 1)).
    { exists []. simpl. split; [reflexivity|]. intros cmd H. inversion H. }
    destruct (examine_loop E args file_path (length subs) subs (mkLoop (-1) false []) w1)
      as [printed Hloop].
    cbn [index_subtitle fname_printed streams_to_extract app] in Hloop.
    unfold bind. rewrite Hloop. cbn [streams_to_extract].
    set (ds := select args subs (-1)).
    set (w2 := mkWorld (fs w1) (stdout w1 ++ printed) (stderr w1) (spawned w1)).
    set (P := fun cmd : list string => exists d, d ∈ ds /\
                cmd = ffsubextract_command file_path (fst (fst d))
                        (final_name file_path (length ds) d)).
    assert (Hsafe : safe P (for_each ds (extract_stream E args file_path (length ds)))).
    { apply safe_for_each. intros d Hd. apply safe_extract_stream. exists d. auto. }
    destruct (Hsafe w2) as [_ (cmds & Hcmds & HP)].
    exists cmds. split.
    + rewrite Hcmds. simpl. rewrite <- (assoc (++)). reflexivity.
    + intros cmd Hin. destruct (HP cmd Hin) as [(d & Hd & ->) _].
      apply select_spec in Hd as (k & stream & Hk & Hkeep & ->).
      destruct (subtitle_streams_position ffprobe_json k stream Hk) as (j & Hj & Htype & ->).
      exists j, stream. eexists. split; [exact Hj|]. split; [exact Htype|].
      split; [exact Hk|]. split; [exact Hkeep|].
      cbn [fst].
      replace (-1 + 1 + Z.of_nat (subtitles_before (default [] (streams ffprobe_json)) j))
        with (Z.of_nat (subtitles_before (default [] (streams ffprobe_json)) j)) by lia.
      reflexivity.
Qed.

Lemma extraction_addresses_by_ordinal_witness :
  subtitle_streams fra_eng !! 0%nat = Some (subtitle_stream 1 "subrip" 0 (Some "fra") None) /\
  subtitle_streams fra_eng !! 1%nat = Some (subtitle_stream 2 "subrip" 0 (Some "eng") None) /\
  exists cmds,
    spawned (snd (get_ffmpeg_track_id (calm_env fra_eng) (movie_args "fra,eng")
                    "movie.mkv" movie_world)) =
      spawned movie_world ++ ffprobe_command "movie.mkv" :: cmds /\
    forall cmd, cmd ∈ cmds ->
      exists (j : nat) (stream : Stream) (fileout_path : string),
        default [] (streams fra_eng) !! j = Some stream /\
        codec_type stream = Some "subtitle" /\
        subtitle_streams fra_eng !! subtitles_before (default [] (streams fra_eng)) j =
          Some stream /\
        keeps (movie_args "fra,eng") stream = true /\
        cmd = ["ffmpeg"; "-hide_banner"; "-loglevel"; "error"; "-n"; "-i"; "movie.mkv";
               "-map";
               "0:s:" +:+ str_int (Z.of_nat (subtitles_before (default [] (streams fra_eng)) j));
               fileout_path].
Proof.
  destruct (extraction_addresses_by_ordinal (calm_env fra_eng) (movie_args "fra,eng")
              "movie.mkv" movie_world "{}" "" fra_eng eq_refl eq_refl)
    as (_ & Hpos & _ & _ & Hcmds).
  split; [exact (Hpos 1%nat _ eq_refl eq_refl)|].
  split; [exact (Hpos 2%nat _ eq_refl eq_refl)|].
  exact Hcmds.
Defined.

(** The container indexes 1 and 2 of the two subtitle streams appear in no
    selector: the selectors are 0:s:0 and 0:s:1. *)
Example selectors_of_fra_eng :
  spawned (snd (get_ffmpeg_track_id (calm_env fra_eng) (movie_args "fra,eng")
                  "movie.mkv" movie_world)) =
  [ffprobe_command "movie.mkv";
   ["ffmpeg"; "-hide_banner"; "-loglevel"; "error"; "-n"; "-i"; "movie.mkv";
    "-map"; "0:s:0"; "movie.fra.0.srt"];
   ["ffmpeg"; "-hide_banner"; "-loglevel"; "error"; "-n"; "-i"; "movie.mkv";
    "-map"; "0:s:1"; "movie.eng.1.srt"]].
Proof. vm_compute. reflexivity. Qed.

Lemma unset_language_in_name_witness :
  exists i : nat,
    decisions (movie_args "fra") fra_untagged !! i = Some (1, "unset", false) /\
    final_names "movie.mkv" (decisions (movie_args "fra") fra_untagged) !! i =
      Some "movie.unset.1.srt".
Proof.
  apply (unset_language_in_name (movie_args "fra") fra_untagged "movie.mkv" 1
           (subtitle_stream 2 "subrip" 0 None None)).
  - vm_compute. lia.
  - reflexivity.
  - reflexivity.
  - reflexivity.
Defined.

(** ** The scenario of the French and the English stream *)

(** C7, as the script behaves.  Two subtitle streams, French then English,
    text codec, not forced, no SDH title; French wanted, forced and SDH not
    asked for, no scan-only.  The loop keeps the French stream alone, under
    index 0, and, being alone, it is named after the source without any
    language or index: movie.srt for movie.mkv, movie.mp4 and the other
    extensions the script accepts. *)
Theorem scenario_fra_eng (args : Args) (ffprobe_json : ProbeDoc) (s0 s1 : Stream) :
  subtitle_streams ffprobe_json = [s0; s1] ->
  language_of s0 = "fra" -> codec_name_of s0 = "subrip" ->
  stream_is_forced s0 = false -> contains "sdh" (lower (title_of s0)) = false ->
  language_of s1 = "eng" -> codec_name_of s1 = "subrip" ->
  stream_is_forced s1 = false ->
  language args = "fra" -> scan_only args = false ->
  get_forced args = false -> get_sdh args = false ->
  decisions args ffprobe_json = [(0, "fra", false)] /\
  forall ext, ext ∈ supported_extensions ->
    final_names ("movie" +:+ ext) (decisions args ffprobe_json) = ["movie.srt"].
Proof.
  intros Hsubs Hl0 Hc0 Hf0 Hsdh0 Hl1 Hc1 Hf1 Hlang Hscan Hforced Hsdh.
  assert (Hds : decisions args ffprobe_json = [(0, "fra", false)]).
  { unfold decisions. rewrite Hsubs. simpl.
    unfold keeps, ignore_forced, ignore_language, ignore_sdh, wanted_languages.
    rewrite Hscan, Hc0, Hc1, Hf0, Hf1, Hl0, Hl1, Hlang, Hsdh0. reflexivity. }
  split; [exact Hds|].
  intros ext Hext. rewrite Hds.
  unfold supported_extensions in Hext.
  repeat (apply elem_of_cons in Hext as [-> | Hext]; [reflexivity|]).
  inversion Hext.
Qed.

Lemma scenario_fra_eng_witness :
  decisions (movie_args "fra") fra_eng = [(0, "fra", false)] /\
  forall ext, ext ∈ supported_extensions ->
    final_names ("movie" +:+ ext) (decisions (movie_args "fra") fra_eng) = ["movie.srt"].
Proof.
  apply (scenario_fra_eng (movie_args "fra") fra_eng
           (subtitle_stream 1 "subrip" 0 (Some "fra") None)
           (subtitle_stream 2 "subrip" 0 (Some "eng") None)); reflexivity.
Defined.

(** C7 as the specification words it fails: in that scenario the one output
    is movie.srt, and the whole run launches ffmpeg on movie.srt.  And the
    scenario has to say that the French stream is no SDH one: with a title
    that holds "SDH" it is not forced, French and subrip as the scenario
    asks, and nothing is kept. *)
Lemma scenario_fra_eng_counterexample :
  decisions (movie_args "fra") fra_eng = [(0, "fra", false)] /\
  final_names "movie.mkv" (decisions (movie_args "fra") fra_eng) <> ["movie.fra.0.srt"] /\
  spawned (snd (script (calm_env fra_eng) (Parsed (movie_args "fra")) movie_world)) =
    [ffprobe_command "movie.mkv"; ffsubextract_command "movie.mkv" 0 "movie.srt"] /\
  (subtitle_streams fra_sdh_eng =
     [subtitle_stream 1 "subrip" 0 (Some "fra") (Some "Francais SDH");
      subtitle_stream 2 "subrip" 0 (Some "eng") None] /\
   stream_is_forced (subtitle_stream 1 "subrip" 0 (Some "fra") (Some "Francais SDH")) = false /\
   decisions (movie_args "fra") fra_sdh_eng = []).
Proof.
  split; [reflexivity|]. split; [discriminate|]. split; [vm_compute; reflexivity|].
  repeat split; vm_compute; reflexivity.
Qed.

(** ** Output files that are already there *)

(** A turn of the extracting loop whose output file exists. *)
Lemma extract_stream_existing E args file_path n d w :
  is_Some (fs w !! final_name file_path n d) ->
  extract_stream E args file_path n d w =
  (Ok tt,
   mkWorld (fs w)
     (stdout w ++
      (if verbose args >? 1
       then ["  Subtitle filename : " +:+ " " +:+ final_name file_path n d] else []) ++
      (if truthy (verbose args)
       then ["  ! Subtitles already exists (" +:+ final_name file_path n d +:+ ")"]
       else []))
     (stderr w) (spawned w)).
Proof.
  intros Hthere. unfold extract_stream, bind, when, path_exists, print, ret.
  destruct (verbose args >? 1); destruct (truthy (verbose args));
    cbn [fs stdout stderr spawned];
    rewrite (bool_decide_eq_true_2 _ Hthere);
    cbn [fs stdout stderr spawned app];
    rewrite ?app_nil_r, <- ?(assoc (++)); destruct w; reflexivity.
Qed.

(** C4, as the script behaves.  For an entry of [streams_to_extract] whose
    output file exists, ffmpeg is not launched, no file changes, and the
    line saying that the subtitles already exist is printed when the
    verbosity is not 0, and only then.  Over whole runs: a second run of the
    script from where a first run ended leaves every file of that moment as
    it is, and launches no ffmpeg on an output file of that moment. *)
Theorem extraction_never_overwrites (E : Env) :
  (forall args file_path n d w,
     is_Some (fs w !! final_name file_path n d) ->
     let w' := snd (extract_stream E args file_path n d w) in
     fst (extract_stream E args file_path n d w) = Ok tt /\
     spawned w' = spawned w /\ fs w' = fs w /\ stderr w' = stderr w /\
     stdout w' =
       stdout w ++
       (if verbose args >? 1
        then ["  Subtitle filename : " +:+ " " +:+ final_name file_path n d] else []) ++
       (if verbose args =? 0 then []
        else ["  ! Subtitles already exists (" +:+ final_name file_path n d +:+ ")"])) /\
  (forall parsed w0,
     let w1 := snd (script E parsed w0) in
     let w2 := snd (script E parsed w1) in
     (forall p, is_Some (fs w1 !! p) -> fs w2 !! p = fs w1 !! p) /\
     exists cmds,
       spawned w2 = spawned w1 ++ cmds /\
       forall cmd file_path subtitle_index fileout_path,
         cmd ∈ cmds ->
         cmd = ffsubextract_command file_path subtitle_index fileout_path ->
         fs w1 !! fileout_path = None).
Proof.
  split.
  - intros args file_path n d w Hthere w'. subst w'.
    rewrite (extract_stream_existing E args file_path n d w Hthere). simpl.
    unfold truthy. destruct (verbose args =? 0); simpl; auto.
  - intros parsed w0 w1 w2.
    destruct (safe_script E parsed w1) as [Hfs (cmds & Hcmds & Hout)].
    split; [exact Hfs|]. exists cmds. split; [exact Hcmds|].
    intros cmd fp k dest Hin Heq. destruct (Hout cmd Hin) as [_ H]. eapply H, Heq.
Qed.

Lemma extraction_never_overwrites_witness :
  let w1 := snd (script (calm_env fra_eng) (Parsed (movie_args "fra,eng")) movie_world) in
  let w2 := snd (script (calm_env fra_eng) (Parsed (movie_args "fra,eng")) w1) in
  fs w1 !! "movie.fra.0.srt" = Some (File "1") /\
  fs w2 !! "movie.fra.0.srt" = fs w1 !! "movie.fra.0.srt".
Proof.
  split; [vm_compute; reflexivity|].
  apply (proj2 (extraction_never_overwrites (calm_env fra_eng))
           (Parsed (movie_args "fra,eng")) movie_world).
  vm_compute. eauto.
Defined.

(** With the default verbosity a second run says nothing of the subtitles
    it finds in place: it launches the probe alone and prints the one line
    that announces the file. *)
Lemma already_exists_unreported_counterexample :
  let w1 := snd (script (calm_env fra_eng) (Parsed (movie_args "fra,eng")) movie_world) in
  let w2 := snd (script (calm_env fra_eng) (Parsed (movie_args "fra,eng")) w1) in
  is_Some (fs w1 !! "movie.fra.0.srt") /\ is_Some (fs w1 !! "movie.eng.1.srt") /\
  spawned w2 = spawned w1 ++ [ffprobe_command "movie.mkv"] /\
  stdout w2 = stdout w1 ++
    ["Process " +:+ dquote +:+ "movie.mkv" +:+ dquote +:+ " for 2 subtitle(s)"] /\
  forallb (fun line => negb (contains "already exists" line)) (stdout w2) = true.
Proof.
  cbv zeta. split; [vm_compute; eauto|]. split; [vm_compute; eauto|].
  split; [vm_compute; reflexivity|]. split; vm_compute; reflexivity.
Qed.

(** ** A probe that fails *)

(** The probe invoker on a command that ran and failed. *)
Lemma ffprobe_failed E file_path w :
  (exists rc out err,
     spawn E w (ffprobe_command file_path) = Exited rc out err /\ rc <> 0) \/
  (exists msg, spawn E w (ffprobe_command file_path) = Undecodable msg) ->
  exists error,
    ffprobe E file_path w =
    (Ok (mkFFProbeResult 1212 "" error),
     mkWorld (fs w) (stdout w) (stderr w) (spawned w ++ [ffprobe_command file_path])).
Proof.
  intros Hfail. unfold ffprobe, try_except, bind, subprocess_run.
  destruct Hfail as [(rc & out & err & -> & Hrc) | (msg & ->)].
  - apply Z.eqb_neq in Hrc. rewrite Hrc. simpl. eauto.
  - simpl. eauto.
Qed.

(** The caller on a probe result of status 1212. *)
Lemma get_ffmpeg_track_id_failed E args file_path w error w1 :
  ffprobe E file_path w = (Ok (mkFFProbeResult 1212 "" error), w1) ->
  get_ffmpeg_track_id E args file_path w =
  (Ok tt,
   mkWorld (fs w1)
     (stdout w1 ++ ["Error probe file " +:+ dquote +:+ file_path +:+ dquote])
     (stderr w1 ++ ["  " +:+ " " +:+ error]) (spawned w1)).
Proof.
  intros Hprobe. unfold get_ffmpeg_track_id, bind at 1. rewrite Hprobe. reflexivity.
Qed.

(** C8, as the script behaves.  When ffprobe exits with a non-zero status,
    or prints what is not utf8, the probe invoker returns status 1212 with
    an empty JSON text and the message of the exception; the caller prints
    one line on each of stdout and stderr and returns, whatever the JSON
    parser would have answered; and the loop over the files goes on with
    the next one.  When ffprobe cannot be launched the probe invoker
    returns nothing: the OSError goes through it and through its caller. *)
Theorem probe_failure_skips_file (E : Env) (args : Args) (file_path : string) (w : World) :
  ((exists rc out err,
      spawn E w (ffprobe_command file_path) = Exited rc out err /\ rc <> 0) \/
   (exists msg, spawn E w (ffprobe_command file_path) = Undecodable msg) ->
   exists error,
     let launched := spawned w ++ [ffprobe_command file_path] in
     let w' := mkWorld (fs w)
                 (stdout w ++ ["Error probe file " +:+ dquote +:+ file_path +:+ dquote])
                 (stderr w ++ ["  " +:+ " " +:+ error]) launched in
     ffprobe E file_path w =
       (Ok (mkFFProbeResult 1212 "" error),
        mkWorld (fs w) (stdout w) (stderr w) launched) /\
     (forall loads,
        get_ffmpeg_track_id (set_json_loads loads E) args file_path w = (Ok tt, w')) /\
     (forall names,
        for_each (file_path :: names) (get_ffmpeg_track_id E args) w =
        for_each names (get_ffmpeg_track_id E args) w')) /\
  (forall errno msg,
     spawn E w (ffprobe_command file_path) = LaunchFailed errno msg ->
     fst (ffprobe E file_path w) = Raise (OSError errno msg) /\
     fst (get_ffmpeg_track_id E args file_path w) = Raise (OSError errno msg)).
Proof.
  split.
  - intros Hfail. destruct (ffprobe_failed E file_path w Hfail) as [error Hprobe].
    exists error. cbv zeta. split; [exact Hprobe|]. split.
    + intros loads.
      rewrite (get_ffmpeg_track_id_failed (set_json_loads loads E) args file_path w error _
                 Hprobe).
      reflexivity.
    + intros names. cbn [for_each]. unfold bind at 1.
      rewrite (get_ffmpeg_track_id_failed E args file_path w error _ Hprobe). reflexivity.
  - intros errno msg Hspawn.
    unfold get_ffmpeg_track_id, bind at 1, ffprobe, try_except, bind, subprocess_run.
    rewrite Hspawn. split; reflexivity.
Qed.

Lemma probe_failure_skips_file_witness :
  exists error,
    ffprobe (failing_env fra_eng) "movie.mkv" two_movies_world =
      (Ok (mkFFProbeResult 1212 "" error),
       mkWorld (fs two_movies_world) [] [] [ffprobe_command "movie.mkv"]) /\
    (forall loads,
       get_ffmpeg_track_id (set_json_loads loads (failing_env fra_eng))
         (movie_args "fra") "movie.mkv" two_movies_world =
       (Ok tt,
        mkWorld (fs two_movies_world)
          ["Error probe file " +:+ dquote +:+ "movie.mkv" +:+ dquote]
          ["  " +:+ " " +:+ error] [ffprobe_command "movie.mkv"])) /\
    (forall names,
       for_each ("movie.mkv" :: names)
         (get_ffmpeg_track_id (failing_env fra_eng) (movie_args "fra")) two_movies_world =
       for_each names (get_ffmpeg_track_id (failing_env fra_eng) (movie_args "fra"))
         (mkWorld (fs two_movies_world)
            ["Error probe file " +:+ dquote +:+ "movie.mkv" +:+ dquote]
            ["  " +:+ " " +:+ error] [ffprobe_command "movie.mkv"])).
Proof.
  apply (proj1 (probe_failure_skips_file (failing_env fra_eng) (movie_args "fra")
                  "movie.mkv" two_movies_world)).
  left. exists 1, "", "Invalid data found". split; [reflexivity | lia].
Defined.

(** C8 as the specification words it fails where ffprobe cannot be launched:
    the probe invoker returns no result, the OSError goes through it; the
    script prints nothing and the second file is never probed. *)
Lemma probe_launch_failure_counterexample :
  let args := mkArgs ["movie.mkv"; "other.mkv"] "fra" 0 false false false false in
  let run := script (no_binary_env fra_eng) (Parsed args) two_movies_world in
  fst (ffprobe (no_binary_env fra_eng) "movie.mkv" two_movies_world) =
    Raise (OSError 2 "No such file or directory") /\
  fst run = Raise (OSError 2 "No such file or directory") /\
  spawned (snd run) = [ffprobe_command "movie.mkv"] /\
  stdout (snd run) = [] /\ stderr (snd run) = [].
Proof. cbv zeta. repeat split; vm_compute; reflexivity. Qed.

(** ** The exit status *)



Lemma returns_eprint line : returns (eprint line).
Proof. intros w. eexists. reflexivity. Qed.






Section NoException.
Variable E : Env.
Hypothesis launches :
  forall w cmd errno msg, spawn E w cmd <> LaunchFailed errno msg.
Hypothesis probe_output_parses :
  forall w file_path out err,
    spawn E w (ffprobe_command file_path) = Exited 0 out err ->
    exists ffprobe_json, json_loads E out = inr ffprobe_json.






End NoException.



(** Both probes of that run fail and are reported; the run goes to its end. *)
Example two_failed_probes :
  let args := mkArgs ["movie.mkv"; "other.mkv"] "fra" 0 false false false false in
  let run := script (failing_env fra_eng) (Parsed args) two_movies_world in
  spawned (snd run) = [ffprobe_command "movie.mkv"; ffprobe_command "other.mkv"] /\
  stdout (snd run) = ["Error probe file " +:+ dquote +:+ "movie.mkv" +:+ dquote;
                      "Error probe file " +:+ dquote +:+ "other.mkv" +:+ dquote].
Proof. cbv zeta. split; vm_compute; reflexivity. Qed.

(** Two extractions that fail are reported and the run ends with status 0. *)
Example two_failed_extractions :
  let run := script (broken_ffmpeg_env fra_eng) (Parsed (movie_args "fra,eng")) movie_world in
  exit_status (fst run) = 0 /\
  stdout (snd run) =
    ["Process " +:+ dquote +:+ "movie.mkv" +:+ dquote +:+ " for 2 subtitle(s)";
     "  !!! ERROR code 1 : " +:+ dquote +:+ "Conversion failed!" +:+ dquote;
     "  !!! ERROR code 1 : " +:+ dquote +:+ "Conversion failed!" +:+ dquote] /\
  fs (snd run) = fs movie_world.
Proof. cbv zeta. repeat split; vm_compute; reflexivity. Qed.


(** ** The string and path functions on sample values *)

Example splitext_mkv : PosixPath.splitext "dir.d/movie.en.mkv" = ("dir.d/movie.en", ".mkv").
Proof. reflexivity. Qed.
Example splitext_noext : PosixPath.splitext "dir.d/movie" = ("dir.d/movie", "").
Proof. reflexivity. Qed.
Example splitext_hidden : PosixPath.splitext "dir/..bashrc" = ("dir/..bashrc", "").
Proof. reflexivity. Qed.
Example split_ex : PosixPath.split "/a/b//c.mkv" = ("/a/b", "c.mkv").
Proof. reflexivity. Qed.
Example split_root : PosixPath.split "//c.mkv" = ("//", "c.mkv").
Proof. reflexivity. Qed.
Example join_ex : PosixPath.join "a/" "b" = "a/b" /\ PosixPath.join "a" "b" = "a/b" /\ PosixPath.join "" "b" = "b" /\ PosixPath.join "a" "/b" = "/b".
Proof. repeat split; reflexivity. Qed.
Example str_ex : PyStr.str_int 0 = "0" /\ PyStr.str_int 12 = "12" /\ PyStr.str_int (-1) = "-1".
Proof. repeat split; reflexivity. Qed.
Example split_comma : PyStr.split "," "fre,fra" = ["fre"; "fra"] /\ PyStr.split "," "" = [""] /\ PyStr.split "," "a,,b," = ["a"; ""; "b"; ""].
Proof. repeat split; reflexivity. Qed.
Example rstrip_ex : PyStr.rstrip ["013"; "010"]%char (String "a" (String "010" (String "b" (String "013" (String "010" ""))))) = String "a" (String "010" "b").
Proof. reflexivity. Qed.
Example lower_ex : PyStr.lower "Forced [SDH]" = "forced [sdh]".
Proof. reflexivity. Qed.

(** * Further properties of the script *)

(** ** The two invokers *)

(** The world after the probe invoker. *)
Lemma ffprobe_world E file_path w :
  snd (ffprobe E file_path w) =
  mkWorld (fs w) (stdout w) (stderr w) (spawned w ++ [ffprobe_command file_path]).
Proof.
  unfold ffprobe, try_except, bind, subprocess_run.
  destruct (spawn E w (ffprobe_command file_path)) as [errno msg|msg|rc out err]; simpl;
    try reflexivity.
  destruct (rc =? 0); reflexivity.
Qed.

(** X1. The probe invoker launches one command and changes no file.  The
    status it returns is 0 or 1212, never the status of the process: 0 with
    the two outputs of a process that exited with status 0, 1212 with an
    empty JSON text for a process that exited otherwise or printed what is
    not utf8.  It raises only when no process could be launched. *)
Theorem ffprobe_status (E : Env) (file_path : string) (w : World) :
  snd (ffprobe E file_path w) =
    mkWorld (fs w) (stdout w) (stderr w) (spawned w ++ [ffprobe_command file_path]) /\
  match fst (ffprobe E file_path w) with
  | Ok r =>
      (return_code r = 0 /\
       spawn E w (ffprobe_command file_path) = Exited 0 (json r) (error r)) \/
      (return_code r = 1212 /\ json r = "" /\
       ((exists rc out err,
           spawn E w (ffprobe_command file_path) = Exited rc out err /\ rc <> 0) \/
        (exists msg, spawn E w (ffprobe_command file_path) = Undecodable msg)))
  | Raise e =>
      exists errno msg,
        e = OSError errno msg /\
        spawn E w (ffprobe_command file_path) = LaunchFailed errno msg
  end.
Proof.
  unfold ffprobe, try_except, bind, subprocess_run.
  destruct (spawn E w (ffprobe_command file_path)) as [errno msg|msg|rc out err]; simpl.
  - split; [reflexivity|]. eauto.
  - split; [reflexivity|]. right. repeat split; eauto.
  - destruct (rc =? 0) eqn:Hrc; simpl.
    + apply Z.eqb_eq in Hrc. subst rc. split; [reflexivity|]. left. auto.
    + apply Z.eqb_neq in Hrc. split; [reflexivity|]. right. repeat split; eauto 10.
Qed.

(** X2. The extractor invoker never raises for a process that ran: an exit
    status, zero or not, comes back with the error output of the process,
    and undecodable output comes back as status -1 with the message of the
    exception.  It raises only when no process could be launched. *)
Theorem ffsubextract_status (E : Env) (file_path : string) (subtitle_index : Z)
    (fileout_path : string) (w : World) :
  let cmd := ffsubextract_command file_path subtitle_index fileout_path in
  spawned (snd (ffsubextract E file_path subtitle_index fileout_path w)) =
    spawned w ++ [cmd] /\
  match fst (ffsubextract E file_path subtitle_index fileout_path w) with
  | Ok (code, result) =>
      (exists out, spawn E w cmd = Exited code out result) \/
      (code = -1 /\ spawn E w cmd = Undecodable result)
  | Raise e =>
      exists errno msg, e = OSError errno msg /\ spawn E w cmd = LaunchFailed errno msg
  end.
Proof.
  cbv zeta. unfold ffsubextract, try_except, bind, subprocess_run.
  destruct (spawn E w (ffsubextract_command file_path subtitle_index fileout_path))
    as [errno msg|msg|rc out err]; simpl.
  - split; [reflexivity|]. eauto.
  - split; [reflexivity|]. right. auto.
  - split; [reflexivity|]. left. eauto.
Qed.

(** ** A probed file with nothing to extract from *)

Lemma filter_none {A} (f : A -> bool) (l : list A) :
  (forall x, x ∈ l -> f x = false) -> List.filter f l = [].
Proof.
  induction l as [|a l IH]; intros H; simpl; [reflexivity|].
  rewrite (H a) by left. apply IH. intros x Hx. apply H. right. exact Hx.
Qed.

(** X3. When the probe output has no stream of type subtitle (none at all,
    no [streams] key, or streams without a [codec_type]), the file is left
    after the probe: no ffmpeg, no file changed, and one line on stdout
    only if the verbosity is above 1. *)
Theorem no_subtitle_streams (E : Env) (args : Args) (file_path : string) (w : World)
    (out err : string) (ffprobe_json : ProbeDoc) :
  spawn E w (ffprobe_command file_path) = Exited 0 out err ->
  json_loads E out = inr ffprobe_json ->
  (forall stream, stream ∈ default [] (streams ffprobe_json) ->
     codec_type stream <> Some "subtitle") ->
  get_ffmpeg_track_id E args file_path w =
  (Ok tt,
   mkWorld (fs w)
     (stdout w ++
      (if verbose args >? 1
       then ["No subtitles for " +:+ dquote +:+ file_path +:+ dquote] else []))
     (stderr w) (spawned w ++ [ffprobe_command file_path])).
Proof.
  intros Hspawn Hjson Hnone.
  rewrite (get_ffmpeg_track_id_probed _ _ _ _ _ _ _ Hspawn Hjson).
  assert (Hsubs : subtitle_streams ffprobe_json = []).
  { unfold subtitle_streams. apply filter_none. intros s Hs.
    specialize (Hnone s Hs). unfold is_subtitle.
    destruct (codec_type s) as [t|]; simpl; [|reflexivity].
    apply String.eqb_neq. congruence. }
  rewrite Hsubs. cbv zeta. simpl.
  destruct (verbose args >? 1); [reflexivity|].
  unfold bind, ret. simpl. rewrite app_nil_r. reflexivity.
Qed.

Lemma no_subtitle_streams_witness :
  get_ffmpeg_track_id (calm_env (mkProbeDoc None)) (movie_args "fra") "movie.mkv" movie_world =
  (Ok tt, mkWorld (fs movie_world) [] [] [ffprobe_command "movie.mkv"]).
Proof.
  apply (no_subtitle_streams (calm_env (mkProbeDoc None)) (movie_args "fra") "movie.mkv"
           movie_world "{}" "" (mkProbeDoc None)).
  - reflexivity.
  - reflexivity.
  - intros stream H. inversion H.
Defined.

(** X4. When the probe exits with status 0 and its output does not parse,
    the exception of the parser leaves [get_ffmpeg_track_id] with nothing
    printed, and the loop over the files stops there: the files after it
    are not probed. *)
Theorem unparsable_probe_output (E : Env) (args : Args) (file_path : string) (w : World)
    (out err : string) (e : exn) :
  spawn E w (ffprobe_command file_path) = Exited 0 out err ->
  json_loads E out = inl e ->
  let w' := mkWorld (fs w) (stdout w) (stderr w)
              (spawned w ++ [ffprobe_command file_path]) in
  get_ffmpeg_track_id E args file_path w = (Raise e, w') /\
  forall names,
    for_each (file_path :: names) (get_ffmpeg_track_id E args) w = (Raise e, w').
Proof.
  intros Hspawn Hjson. cbv zeta.
  assert (H : get_ffmpeg_track_id E args file_path w =
              (Raise e, mkWorld (fs w) (stdout w) (stderr w)
                          (spawned w ++ [ffprobe_command file_path]))).
  { unfold get_ffmpeg_track_id, bind at 1, ffprobe, try_except, bind at 1, subprocess_run.
    rewrite Hspawn. simpl. unfold bind at 1, loads. rewrite Hjson. reflexivity. }
  split; [exact H|]. intros names. cbn [for_each]. unfold bind at 1. rewrite H. reflexivity.
Qed.

Lemma unparsable_probe_output_witness :
  let E := set_json_loads (fun _ => inl (JSONDecodeError "Expecting value")) (calm_env fra_eng) in
  get_ffmpeg_track_id E (movie_args "fra") "movie.mkv" two_movies_world =
    (Raise (JSONDecodeError "Expecting value"),
     mkWorld (fs two_movies_world) [] [] [ffprobe_command "movie.mkv"]) /\
  forall names,
    for_each ("movie.mkv" :: names) (get_ffmpeg_track_id E (movie_args "fra"))
      two_movies_world =
    (Raise (JSONDecodeError "Expecting value"),
     mkWorld (fs two_movies_world) [] [] [ffprobe_command "movie.mkv"]).
Proof.
  apply (unparsable_probe_output
           (set_json_loads (fun _ => inl (JSONDecodeError "Expecting value")) (calm_env fra_eng))
           (movie_args "fra") "movie.mkv" two_movies_world "{}" "");
    reflexivity.
Defined.

(** ** One turn of the extracting loop *)

(** A turn of the extracting loop whose output file is missing comes down
    to the extractor invoker and the line that reports on it. *)
Lemma extract_stream_missing E args file_path n d w :
  fs w !! final_name file_path n d = None ->
  extract_stream E args file_path n d w =
  bind (ffsubextract E file_path (fst (fst d)) (final_name file_path n d))
    (fun r => let '(code, result) := r in
       if negb (code =? 0) then
         print ("  !!! ERROR code " +:+ str_int code +:+ " : " +:+
                dquote +:+ result +:+ dquote)
       else print ("  extract done : " +:+ " " +:+ final_name file_path n d))
    (mkWorld (fs w)
       (stdout w ++
        (if verbose args >? 1
         then ["  Subtitle filename : " +:+ " " +:+ final_name file_path n d] else []))
       (stderr w) (spawned w)).
Proof.
  intros Hmissing.
  set (name := final_name file_path n d) in *.
  assert (Hno : bool_decide (is_Some (fs w !! name)) = false).
  { apply bool_decide_eq_false. rewrite Hmissing. intros [x Hx]. discriminate. }
  unfold extract_stream. fold name. unfold bind at 1.
  destruct (verbose args >? 1); unfold when, print, ret;
    unfold bind at 1, path_exists; cbn [fs]; rewrite Hno; [reflexivity|].
  rewrite app_nil_r. destruct w; reflexivity.
Qed.

(** X5. A turn of the extracting loop whose output file is missing launches
    the ffmpeg command of its entry, once, and goes on whatever the
    outcome: it prints the line of success exactly when the process exited
    with status 0, the line of error with the status otherwise, and with
    status -1 when the output of the process is not utf8.  ([w1] is the
    world the command is launched in: [w] after the line that names the
    output, which is printed when the verbosity is above 1.) *)
Theorem extract_stream_reports (E : Env) (args : Args) (file_path : string) (n : nat)
    (d : decision) (w : World) :
  let name := final_name file_path n d in
  let named :=
    if verbose args >? 1 then ["  Subtitle filename : " +:+ " " +:+ name] else [] in
  let w1 := mkWorld (fs w) (stdout w ++ named) (stderr w) (spawned w) in
  let outcome := spawn E w1 (extract_command file_path n d) in
  let report :=
    match outcome with
    | Exited rc _ err =>
        if rc =? 0 then "  extract done : " +:+ " " +:+ name
        else "  !!! ERROR code " +:+ str_int rc +:+ " : " +:+ dquote +:+ err +:+ dquote
    | Undecodable msg =>
        "  !!! ERROR code " +:+ str_int (-1) +:+ " : " +:+ dquote +:+ msg +:+ dquote
    | LaunchFailed _ _ => ""
    end in
  let w' := snd (extract_stream E args file_path n d w) in
  fs w !! name = None ->
  (forall errno msg, outcome <> LaunchFailed errno msg) ->
  fst (extract_stream E args file_path n d w) = Ok tt /\
  spawned w' = spawned w ++ [extract_command file_path n d] /\
  stderr w' = stderr w /\
  stdout w' = stdout w ++ named ++ [report] /\
  fs w' = match spawn_output E w1 (extract_command file_path n d) with
          | Some data => <[name := File data]> (fs w)
          | None => fs w
          end.
Proof.
  cbv zeta. intros Hmissing Hlaunch. unfold extract_command in *.
  rewrite (extract_stream_missing E args file_path n d w Hmissing).
  set (name := final_name file_path n d) in *.
  set (cmd := ffsubextract_command file_path (fst (fst d)) name) in *.
  set (named := if verbose args >? 1
                then ["  Subtitle filename : " +:+ " " +:+ name] else []) in *.
  set (w1 := mkWorld (fs w) (stdout w ++ named) (stderr w) (spawned w)) in *.
  unfold bind, ffsubextract, try_except, bind, subprocess_run. fold cmd.
  destruct (spawn E w1 cmd) as [errno msg|msg|rc out err] eqn:Hspawn.
  - destruct (Hlaunch errno msg eq_refl).
  - simpl. rewrite <- (assoc (++)). repeat split; reflexivity.
  - simpl. destruct (rc =? 0); simpl; rewrite <- (assoc (++)); repeat split; reflexivity.
Qed.

Lemma extract_stream_reports_witness :
  let d : decision := (0, "fra", false) in
  let w' := snd (extract_stream (broken_ffmpeg_env fra_eng) (movie_args "fra") "movie.mkv" 1 d
                   movie_world) in
  fst (extract_stream (broken_ffmpeg_env fra_eng) (movie_args "fra") "movie.mkv" 1 d
         movie_world) = Ok tt /\
  spawned w' = [ffsubextract_command "movie.mkv" 0 "movie.srt"] /\
  stderr w' = [] /\
  stdout w' = ["  !!! ERROR code 1 : " +:+ dquote +:+ "Conversion failed!" +:+ dquote] /\
  fs w' = fs movie_world.
Proof.
  apply (extract_stream_reports (broken_ffmpeg_env fra_eng) (movie_args "fra") "movie.mkv" 1
           (0, "fra", false) movie_world).
  - vm_compute. reflexivity.
  - intros errno msg. discriminate.
Defined.

(** ** The examining loop *)

Lemma select_sorted args streams : forall i0,
  StronglySorted Z.lt (map (fun d : decision => fst (fst d)) (select args streams i0)).
Proof.
  induction streams as [|s rest IH]; intros i0; simpl; [constructor|].
  destruct (keeps args s); simpl; [|apply IH].
  constructor; [apply IH|].
  apply Forall_forall. intros i Hi.
  apply list_elem_of_fmap in Hi as (d & -> & Hd).
  apply select_indexes_above in Hd. exact Hd.
Qed.

Lemma select_length args streams : forall i0,
  (length (select args streams i0) <= length streams)%nat.
Proof.
  induction streams as [|s rest IH]; intros i0; cbn [select length]; [lia|].
  rewrite length_app. specialize (IH (i0 + 1)).
  unfold decision in *. destruct (keeps args s); cbn [length]; lia.
Qed.

(** X6. [streams_to_extract] lists kept streams in the order of the probe
    output: its subtitle indexes grow strictly, each is the position of a
    subtitle stream, and it has no more entries than there are subtitle
    streams. *)
Theorem decisions_in_probe_order (args : Args) (ffprobe_json : ProbeDoc) :
  let ds := decisions args ffprobe_json in
  let subs := subtitle_streams ffprobe_json in
  StronglySorted Z.lt (map (fun d : decision => fst (fst d)) ds) /\
  (forall d, d ∈ ds -> 0 <= fst (fst d) < Z.of_nat (length subs)) /\
  (length ds <= length subs)%nat.
Proof.
  cbv zeta. split; [apply select_sorted|]. split; [|apply select_length].
  intros d Hd. apply decisions_spec in Hd as (k & s & Hk & _ & ->).
  apply lookup_lt_Some in Hk. simpl. lia.
Qed.

(** [keeps], condition by condition. *)
Lemma keeps_iff args stream :
  keeps args stream = true <->
  scan_only args = false /\
  (codec_name_of stream ∉ unsupported_codec) /\
  (stream_is_forced stream = true -> get_forced args = true) /\
  (language_of stream = "unset" \/ language_of stream ∈ wanted_languages args) /\
  (occurs_ignoring_case "sdh" (title_of stream) -> get_sdh args = true).
Proof.
  assert (Hcodec : ignore_codec (codec_name_of stream) = false <->
                   codec_name_of stream ∉ unsupported_codec).
  { unfold ignore_codec. rewrite <- StrFacts.mem_spec. symmetry. apply not_true_iff_false. }
  assert (Hforced : ignore_forced args (stream_is_forced stream) = false <->
                    (stream_is_forced stream = true -> get_forced args = true)).
  { unfold ignore_forced.
    destruct (stream_is_forced stream), (get_forced args); simpl; split; auto; try discriminate.
    intros H. specialize (H eq_refl). discriminate. }
  assert (Hlang : ignore_language args (language_of stream) = false <->
                  (language_of stream = "unset" \/
                   language_of stream ∈ wanted_languages args)).
  { unfold ignore_language. rewrite andb_false_iff, !negb_false_iff.
    rewrite String.eqb_eq, StrFacts.mem_spec. reflexivity. }
  assert (Hsdh : ignore_sdh args (title_of stream) = false <->
                 (occurs_ignoring_case "sdh" (title_of stream) -> get_sdh args = true)).
  { unfold ignore_sdh. rewrite <- StrFacts.contains_lower_spec.
    destruct (contains "sdh" (lower (title_of stream))), (get_sdh args); simpl;
      split; auto; try discriminate.
    intros H. specialize (H eq_refl). discriminate. }
  rewrite <- Hcodec, <- Hforced, <- Hlang, <- Hsdh. unfold keeps.
  rewrite !andb_true_iff, !negb_true_iff. tauto.
Qed.

(** X7. The examining loop cannot fail, launches nothing, changes no file
    and prints on stdout only.  The entry of index [k] it leaves in
    [streams_to_extract] exists exactly when the [k]-th subtitle stream
    passes the five tests: no scan-only, a codec that is neither of the two
    picture codecs (a missing [codec_name] passes), forced only with
    --get-forced, a language tag that is missing, "unset" or wanted, a
    title with "sdh" only with --get-sdh; the entry carries the language
    and the forced flag of that stream. *)
Theorem examining_loop_decision_table (E : Env) (args : Args) (file_path : string)
    (n : nat) (subs : list Stream) (w : World) :
  exists st printed,
    fold_each subs (examine_stream E args file_path n) (mkLoop (-1) false []) w =
      (Ok st, mkWorld (fs w) (stdout w ++ printed) (stderr w) (spawned w)) /\
    forall (k : nat) (language : string) (is_forced : bool),
      (Z.of_nat k, language, is_forced) ∈ streams_to_extract st <->
      exists stream,
        subs !! k = Some stream /\
        scan_only args = false /\
        (codec_name_of stream ∉ unsupported_codec) /\
        (stream_is_forced stream = true -> get_forced args = true) /\
        (language_of stream = "unset" \/ language_of stream ∈ wanted_languages args) /\
        (occurs_ignoring_case "sdh" (title_of stream) -> get_sdh args = true) /\
        language = language_of stream /\ is_forced = stream_is_forced stream.
Proof.
  destruct (examine_loop E args file_path n subs (mkLoop (-1) false []) w) as [printed Hloop].
  eexists. exists printed. split; [exact Hloop|].
  cbn [streams_to_extract index_subtitle app].
  intros k language is_forced. rewrite select_spec. split.
  - intros (k' & s & Hk & Hkeep & Heq). injection Heq as Hkk -> ->.
    assert (k' = k) by lia. subst k'.
    apply keeps_iff in Hkeep. exists s. tauto.
  - intros (s & Hk & Hrest). exists k, s. split; [exact Hk|].
    split; [apply keeps_iff; tauto|].
    destruct Hrest as (_ & _ & _ & _ & _ & -> & ->). reflexivity.
Qed.

(** X8. The wanted languages are the fields of --language between commas:
    there is at least one, none holds a comma, and joined with commas they
    give --language back; so an empty --language wants the empty tag. *)
Theorem wanted_languages_fields (args : Args) :
  wanted_languages args <> [] /\
  (forall l, l ∈ wanted_languages args -> has_char "," l = false) /\
  String.concat "," (wanted_languages args) = language args /\
  (language args = "" -> wanted_languages args = [""]).
Proof.
  unfold wanted_languages. split; [apply StrFacts.split_not_nil|].
  split; [apply StrFacts.split_fields_no_sep|].
  split; [apply StrFacts.concat_split|].
  intros ->. reflexivity.
Qed.

(** ** Properties kept along a whole run *)

Section Invariant.
Variable R : World -> World -> Prop.
Hypothesis R_refl : forall w, R w w.
Hypothesis R_trans : forall w1 w2 w3, R w1 w2 -> R w2 w3 -> R w1 w3.
Hypothesis R_printing : forall w out err,
  R w (mkWorld (fs w) (stdout w ++ out) (stderr w ++ err) (spawned w)).

Lemma respects_ret {A} (a : A) : respects R (ret a).
Proof. intros w. apply R_refl. Qed.

Lemma respects_raise {A} e : respects R (@raise A e).
Proof. intros w. apply R_refl. Qed.

Lemma respects_read {A} (f : World -> A) : respects R (fun w => (Ok (f w), w)).
Proof. intros w. apply R_refl. Qed.

Lemma respects_print line : respects R (print line).
Proof.
  intros w. simpl. pose proof (R_printing w [line] []) as H.
  rewrite app_nil_r in H. exact H.
Qed.

Lemma respects_eprint line : respects R (eprint line).
Proof.
  intros w. simpl. pose proof (R_printing w [] [line]) as H.
  rewrite app_nil_r in H. exact H.
Qed.

Lemma respects_only_prints {A} (c : M A) a : only_prints c a -> respects R c.
Proof.
  intros Hc w. destruct (Hc w) as [out ->]. simpl.
  pose proof (R_printing w out []) as H. rewrite app_nil_r in H. exact H.
Qed.

Lemma respects_bind {A B} (c : M A) (k : A -> M B) :
  respects R c -> (forall a, respects R (k a)) -> respects R (bind c k).
Proof.
  intros Hc Hk w. unfold bind. specialize (Hc w).
  destruct (c w) as [[a|e] w1]; simpl in *; [|exact Hc].
  eapply R_trans; [exact Hc | apply Hk].
Qed.

(** After a computation that only prints, the value it returns is known. *)
Lemma respects_after_prints {A B} (c : M A) (k : A -> M B) a :
  only_prints c a -> respects R (k a) -> respects R (bind c k).
Proof.
  intros Hc Hk w. unfold bind. destruct (Hc w) as [out ->].
  eapply R_trans; [|apply Hk].
  pose proof (R_printing w out []) as H. rewrite app_nil_r in H. exact H.
Qed.

Lemma respects_when b c : respects R c -> respects R (when b c).
Proof. intros Hc. destruct b; simpl; [exact Hc | apply respects_ret]. Qed.

Lemma respects_if {A} (b : bool) (c1 c2 : M A) :
  respects R c1 -> respects R c2 -> respects R (if b then c1 else c2).
Proof. destruct b; auto. Qed.

Lemma respects_for_each {A} (l : list A) body :
  (forall x, x ∈ l -> respects R (body x)) -> respects R (for_each l body).
Proof.
  induction l as [|x l IH]; intros Hbody; simpl.
  - apply respects_ret.
  - apply respects_bind.
    + apply Hbody. left.
    + intros _. apply IH. intros y Hy. apply Hbody. right. exact Hy.
Qed.

Lemma respects_try_except {A} (c : M A) caught handler :
  respects R c -> (forall e, respects R (handler e)) ->
  respects R (try_except c caught handler).
Proof.
  intros Hc Hh w. unfold try_except. specialize (Hc w).
  destruct (c w) as [[a|e] w1]; simpl in *; [exact Hc|].
  destruct (caught e); [|exact Hc].
  eapply R_trans; [exact Hc | apply Hh].
Qed.

(** What every probed file respects, the walk over the file list and the
    whole script respect. *)
Section Walk.
Variable E : Env.
Variable args : Args.
Hypothesis R_file : forall file_path, respects R (get_ffmpeg_track_id E args file_path).

Lemma respects_process_movie root name : respects R (process_movie E args root name).
Proof.
  unfold process_movie.
  destruct (match root with
            | None | Some EmptyString => PosixPath.split name
            | Some r => (r, name)
            end) as [root' name'].
  destruct (PosixPath.splitext name') as [basename ext].
  apply respects_if; [apply respects_ret | apply R_file].
Qed.

Lemma respects_process : respects R (process E args).
Proof.
  unfold process. apply respects_for_each. intros glob_name _.
  apply respects_bind; [apply respects_read|]. intros names.
  apply respects_for_each. intros fname _.
  apply respects_bind; [apply respects_read|]. intros f.
  apply respects_if; [apply respects_process_movie|].
  apply respects_bind; [apply respects_read|]. intros d.
  apply respects_if; [|apply respects_ret].
  apply respects_bind; [apply respects_read|]. intros tree.
  apply respects_for_each. intros [root files] _.
  apply respects_for_each. intros fname' _. apply respects_process_movie.
Qed.

Lemma respects_script : respects R (script E (Parsed args)).
Proof.
  unfold script. apply respects_try_except.
  - unfold main. apply respects_if; [|apply respects_process].
    apply respects_bind; [apply respects_print | intros _; apply respects_raise].
  - intros [errno msg| | | |]; try apply respects_raise.
    apply respects_if; [apply respects_raise | apply respects_ret].
Qed.

End Walk.
End Invariant.

(** ** Scan-only *)

Lemma probes_only_refl w : probes_only w w.
Proof.
  split; [reflexivity|]. exists []. rewrite app_nil_r.
  split; [reflexivity|]. intros cmd H. inversion H.
Qed.

Lemma probes_only_trans w1 w2 w3 :
  probes_only w1 w2 -> probes_only w2 w3 -> probes_only w1 w3.
Proof.
  intros [Hfs12 (c12 & Hs12 & Hc12)] [Hfs23 (c23 & Hs23 & Hc23)]. split.
  - congruence.
  - exists (c12 ++ c23). split.
    + rewrite Hs23, Hs12, (assoc (++)). reflexivity.
    + intros cmd Hin. apply elem_of_app in Hin as [Hin | Hin]; auto.
Qed.

Lemma probes_only_printing w out err :
  probes_only w (mkWorld (fs w) (stdout w ++ out) (stderr w ++ err) (spawned w)).
Proof.
  split; [reflexivity|]. exists []. simpl. rewrite app_nil_r.
  split; [reflexivity|]. intros cmd H. inversion H.
Qed.

Lemma select_scan_only args streams : forall i0,
  scan_only args = true -> select args streams i0 = [].
Proof.
  intros i0 Hscan. revert i0. induction streams as [|s rest IH]; intros i0; simpl; [reflexivity|].
  unfold keeps. rewrite Hscan, IH. reflexivity.
Qed.

Lemma probes_only_ffprobe E file_path : respects probes_only (ffprobe E file_path).
Proof.
  intros w. rewrite ffprobe_world.
  split; [reflexivity|]. exists [ffprobe_command file_path].
  split; [reflexivity|]. intros cmd Hin. apply list_elem_of_singleton in Hin. eauto.
Qed.

Lemma probes_only_file E args file_path :
  scan_only args = true ->
  respects probes_only (get_ffmpeg_track_id E args file_path).
Proof.
  intros Hscan. unfold get_ffmpeg_track_id.
  apply (respects_bind _ probes_only_trans); [apply probes_only_ffprobe|].
  intros r. apply respects_if.
  - apply (respects_bind _ probes_only_trans).
    + apply (respects_print _ probes_only_printing).
    + intros _. apply (respects_eprint _ probes_only_printing).
  - apply (respects_bind _ probes_only_trans).
    + unfold loads. destruct (json_loads E (json r)).
      * apply (respects_raise _ probes_only_refl).
      * apply (respects_ret _ probes_only_refl).
    + intros doc. apply respects_if; [apply (respects_print _ probes_only_printing)|].
      eapply (respects_after_prints _ probes_only_trans probes_only_printing);
        [apply examine_loop|].
      cbn [streams_to_extract index_subtitle app].
      rewrite (select_scan_only _ _ _ Hscan). simpl.
      apply (respects_ret _ probes_only_refl).
Qed.

(** X9. Under --scan-only a whole run changes no file and launches nothing
    but probes: no ffmpeg, whatever the probes answer. *)
Theorem scan_only_extracts_nothing (E : Env) (args : Args) (w : World) :
  scan_only args = true ->
  let w' := snd (script E (Parsed args) w) in
  fs w' = fs w /\
  exists cmds,
    spawned w' = spawned w ++ cmds /\
    forall cmd, cmd ∈ cmds -> exists file_path, cmd = ffprobe_command file_path.
Proof.
  intros Hscan.
  apply (respects_script _ probes_only_refl probes_only_trans probes_only_printing E args).
  intros file_path. apply probes_only_file, Hscan.
Qed.

Lemma scan_only_extracts_nothing_witness :
  let args := mkArgs ["movie.mkv"] "fra,eng" 0 false false false true in
  let w' := snd (script (calm_env fra_eng) (Parsed args) movie_world) in
  fs w' = fs movie_world /\
  exists cmds,
    spawned w' = spawned movie_world ++ cmds /\
    forall cmd, cmd ∈ cmds -> exists file_path, cmd = ffprobe_command file_path.
Proof.
  apply (scan_only_extracts_nothing (calm_env fra_eng)
           (mkArgs ["movie.mkv"] "fra,eng" 0 false false false true) movie_world).
  reflexivity.
Defined.

(** ** The commands of a run *)

Lemma evolves_printing P w out err :
  evolves P w (mkWorld (fs w) (stdout w ++ out) (stderr w ++ err) (spawned w)).
Proof.
  split; [reflexivity|]. exists []. simpl. rewrite app_nil_r.
  split; [reflexivity|]. intros cmd H. inversion H.
Qed.

(** An output name is the source without its extension, a middle part
    and .srt. *)
Lemma final_name_shape file_path n d :
  exists middle,
    final_name file_path n d = fst (PosixPath.splitext file_path) +:+ middle +:+ ".srt".
Proof.
  destruct d as [[i l] f]. unfold final_name. destruct (Nat.eqb n 1).
  - exists "". reflexivity.
  - exists ("." +:+ l +:+ "." +:+ str_int i +:+ (if f then ".forced" else "")).
    rewrite !StrFacts.str_app_assoc. reflexivity.
Qed.

Lemma script_command_file E args file_path :
  safe script_command (get_ffmpeg_track_id E args file_path).
Proof.
  unfold get_ffmpeg_track_id.
  apply safe_bind; [apply safe_ffprobe; left; eauto|]. intros r.
  apply safe_if.
  - apply safe_bind; [apply safe_print | intros _; apply safe_eprint].
  - apply safe_bind.
    + unfold loads. destruct (json_loads E (json r)); [apply safe_raise | apply safe_ret].
    + intros doc. apply safe_if; [apply safe_print|].
      apply safe_bind.
      * eapply only_prints_safe, examine_loop.
      * intros st. apply safe_for_each. intros d _.
        apply safe_extract_stream. right.
        destruct (final_name_shape file_path (length (streams_to_extract st)) d)
          as [middle ->].
        eauto.
Qed.

(** X10. Whatever the command line and the answers of the programs, every
    command a run launches is a probe, or an extraction whose output is
    named after the file it reads (that path without its extension, a
    middle part, .srt) and did not exist when the run began. *)
Theorem commands_of_a_run (E : Env) (args : Args) (w : World) :
  exists cmds,
    spawned (snd (script E (Parsed args) w)) = spawned w ++ cmds /\
    forall cmd, cmd ∈ cmds ->
      (exists file_path, cmd = ffprobe_command file_path) \/
      (exists file_path subtitle_index middle,
         cmd = ffsubextract_command file_path subtitle_index
                 (fst (PosixPath.splitext file_path) +:+ middle +:+ ".srt") /\
         fs w !! (fst (PosixPath.splitext file_path) +:+ middle +:+ ".srt") = None).
Proof.
  pose proof (respects_script _ (evolves_refl script_command)
                (evolves_trans script_command) (evolves_printing script_command)
                E args (script_command_file E args) w) as [_ (cmds & Hs & Hc)].
  exists cmds. split; [exact Hs|].
  intros cmd Hin. destruct (Hc cmd Hin) as [[Hprobe | (fp & k & middle & ->)] Hout].
  - left. exact Hprobe.
  - right. exists fp, k, middle. split; [reflexivity|]. eapply Hout. reflexivity.
Qed.

(** ** Output names and movie names *)

Lemma list_ascii_app a b :
  list_ascii_of_string (a +:+ b) = list_ascii_of_string a ++ list_ascii_of_string b.
Proof.
  induction a as [|c a IH]; [reflexivity|].
  rewrite StrFacts.str_app_cons. simpl. rewrite IH. reflexivity.
Qed.

(** Two strings that are equal end alike. *)
Lemma same_end a b s t :
  String.length s = String.length t -> a +:+ s = b +:+ t -> s = t.
Proof.
  intros Hlen Heq. apply (f_equal list_ascii_of_string) in Heq.
  rewrite !list_ascii_app in Heq.
  assert (Hl : forall x, length (list_ascii_of_string x) = String.length x).
  { induction x as [|c x IH]; simpl; congruence. }
  apply app_inj_2 in Heq as [_ Heq]; [|rewrite !Hl; exact Hlen].
  apply (f_equal string_of_list_ascii) in Heq.
  rewrite !string_of_list_ascii_of_string in Heq. exact Heq.
Qed.

(** X11. No output name ends in one of the extensions the script takes for
    a movie: ffmpeg is never told to write onto a file the walk would
    probe, the source of the extraction least of all. *)
Theorem output_is_not_a_movie (file_path : string) (n : nat) (d : decision)
    (stem ext : string) :
  ext ∈ supported_extensions ->
  final_name file_path n d <> stem +:+ ext.
Proof.
  intros Hext Heq.
  destruct (final_name_shape file_path n d) as [middle Hshape].
  rewrite Hshape, <- StrFacts.str_app_assoc in Heq.
  unfold supported_extensions in Hext.
  repeat (apply elem_of_cons in Hext as [-> | Hext];
          [first [ apply same_end in Heq; [discriminate | reflexivity]
                 | change ".mpeg" with ("." +:+ "mpeg") in Heq;
                   rewrite <- (StrFacts.str_app_assoc stem) in Heq;
                   apply same_end in Heq; [discriminate | reflexivity] ] |]).
  inversion Hext.
Qed.

Lemma output_is_not_a_movie_witness :
  final_name "dir/movie.mkv" 2 (1, "fra", true) = "dir/movie.fra.1.forced.srt" /\
  final_name "dir/movie.mkv" 2 (1, "fra", true) <> "dir/movie" +:+ ".mkv".
Proof.
  split; [reflexivity|].
  apply (output_is_not_a_movie "dir/movie.mkv" 2 (1, "fra", true) "dir/movie" ".mkv").
  vm_compute. left.
Defined.

(** ** The ffmpeg commands of a probed file *)

Lemma filter_same {A} (f g : A -> bool) (l : list A) :
  (forall x, x ∈ l -> f x = g x) -> List.filter f l = List.filter g l.
Proof.
  induction l as [|a l IH]; intros H; simpl; [reflexivity|].
  rewrite (H a) by left. rewrite IH; [reflexivity|].
  intros x Hx. apply H. right. exact Hx.
Qed.

Section Launchable.
Variable E : Env.
Hypothesis launches :
  forall w cmd errno msg, spawn E w cmd <> LaunchFailed errno msg.

(** One turn: it ends well, launches the command of its entry when the
    output is missing and nothing otherwise, and leaves every other path
    as it was. *)
Lemma extract_turn args file_path n d w :
  let w' := snd (extract_stream E args file_path n d w) in
  fst (extract_stream E args file_path n d w) = Ok tt /\
  spawned w' =
    spawned w ++ (if output_missing (fs w) file_path n d
                  then [extract_command file_path n d] else []) /\
  forall p, p <> final_name file_path n d -> fs w' !! p = fs w !! p.
Proof.
  cbv zeta. unfold output_missing, extract_command.
  destruct (fs w !! final_name file_path n d) as [x|] eqn:Hlook.
  - rewrite (extract_stream_existing E args file_path n d w) by (rewrite Hlook; eauto).
    rewrite bool_decide_eq_true_2 by eauto.
    simpl. rewrite app_nil_r. auto.
  - rewrite (extract_stream_missing E args file_path n d w Hlook).
    rewrite bool_decide_eq_false_2 by (intros [y Hy]; discriminate).
    cbn [negb].
    set (name := final_name file_path n d) in *.
    set (cmd := ffsubextract_command file_path (fst (fst d)) name).
    unfold bind, ffsubextract, try_except, bind, subprocess_run. fold cmd.
    match goal with |- context [spawn E ?w1 cmd] =>
      destruct (spawn E w1 cmd) as [errno msg|msg|rc out err] eqn:Hspawn;
      [destruct (launches _ _ _ _ Hspawn) | |];
      destruct (spawn_output E w1 cmd) as [data|]
    end; simpl; try destruct (rc =? 0); simpl;
      (split; [reflexivity|]; split; [reflexivity|]);
      intros p Hp; try reflexivity; apply lookup_insert_ne; congruence.
Qed.

(** The extracting loop over entries with distinct output names. *)
Lemma extract_loop args file_path n (l : list decision) : forall w,
  NoDup (map (final_name file_path n) l) ->
  fst (for_each l (extract_stream E args file_path n) w) = Ok tt /\
  spawned (snd (for_each l (extract_stream E args file_path n) w)) =
    spawned w ++ map (extract_command file_path n)
                   (List.filter (output_missing (fs w) file_path n) l).
Proof.
  induction l as [|d l IH]; intros w Hnd.
  - simpl. rewrite app_nil_r. auto.
  - cbn [map] in Hnd. apply NoDup_cons in Hnd as [Hnotin Hnd].
    destruct (extract_turn args file_path n d w) as (Hok & Hsp & Hfs).
    cbn [for_each]. unfold bind.
    destruct (extract_stream E args file_path n d w) as [r w1]. simpl in Hok, Hsp, Hfs.
    subst r. destruct (IH w1 Hnd) as [Hok' Hsp'].
    split; [exact Hok'|]. rewrite Hsp', Hsp. cbn [List.filter].
    assert (Hsame : List.filter (output_missing (fs w1) file_path n) l =
                    List.filter (output_missing (fs w) file_path n) l).
    { apply filter_same. intros x Hx. unfold output_missing.
      rewrite Hfs; [reflexivity|].
      intros Heq. apply Hnotin. rewrite <- Heq.
      apply list_elem_of_fmap. eauto. }
    rewrite Hsame.
    destruct (output_missing (fs w) file_path n d); simpl;
      rewrite <- ?(assoc (++)); rewrite ?app_nil_r; reflexivity.
Qed.

End Launchable.

Lemma decisions_names_NoDup args ffprobe_json file_path :
  NoDup (final_names file_path (decisions args ffprobe_json)).
Proof.
  destruct (Nat.eq_dec (length (decisions args ffprobe_json)) 1%nat) as [Hone | Hne].
  - destruct (decisions args ffprobe_json) as [|d [|? ?]]; try discriminate.
    unfold final_names. simpl. apply NoDup_singleton.
  - unfold final_names. apply (NoDup_map_by _ (fun d : decision => fst (fst d))).
    + intros x y. apply final_name_inj, Hne.
    + apply select_indexes_NoDup.
Qed.

(** X12. For a file whose probe succeeded, when ffmpeg can be launched: the
    run over the file ends without exception, and the commands launched
    after the probe are, in the order of [streams_to_extract], the ffmpeg
    commands of exactly those entries whose output file was missing when
    the file was taken up; so with every output in place the probe is the
    only command. *)
Theorem extractions_of_a_file (E : Env) (args : Args) (file_path : string) (w : World)
    (out err : string) (ffprobe_json : ProbeDoc) :
  (forall w' cmd errno msg, spawn E w' cmd <> LaunchFailed errno msg) ->
  spawn E w (ffprobe_command file_path) = Exited 0 out err ->
  json_loads E out = inr ffprobe_json ->
  let ds := decisions args ffprobe_json in
  fst (get_ffmpeg_track_id E args file_path w) = Ok tt /\
  spawned (snd (get_ffmpeg_track_id E args file_path w)) =
    spawned w ++ ffprobe_command file_path ::
      map (extract_command file_path (length ds))
          (List.filter (output_missing (fs w) file_path (length ds)) ds).
Proof.
  intros Hlaunch Hspawn Hjson ds.
  rewrite (get_ffmpeg_track_id_probed _ _ _ _ _ _ _ Hspawn Hjson). cbv zeta.
  set (w1 := mkWorld (fs w) (stdout w) (stderr w) (spawned w ++ [ffprobe_command file_path])).
  destruct ((Nat.eqb (length (subtitle_streams ffprobe_json)) 0) && (verbose args >? 1))
    eqn:Hnone.
  - apply andb_true_iff in Hnone as [Hlen _]. apply Nat.eqb_eq in Hlen.
    assert (Hds : ds = []).
    { unfold ds, decisions.
      destruct (subtitle_streams ffprobe_json); [reflexivity | discriminate]. }
    rewrite Hds. simpl. auto.
  - destruct (examine_loop E args file_path (length (subtitle_streams ffprobe_json))
                (subtitle_streams ffprobe_json) (mkLoop (-1) false []) w1)
      as [printed Hloop].
    cbn [index_subtitle fname_printed streams_to_extract app] in Hloop.
    unfold bind. rewrite Hloop. cbn [streams_to_extract]. fold (decisions args ffprobe_json).
    fold ds.
    destruct (extract_loop E Hlaunch args file_path (length ds) ds
                (mkWorld (fs w1) (stdout w1 ++ printed) (stderr w1) (spawned w1))
                (decisions_names_NoDup args ffprobe_json file_path)) as [Hok Hsp].
    split; [exact Hok|]. rewrite Hsp. simpl. rewrite <- (assoc (++)). reflexivity.
Qed.

Lemma extractions_of_a_file_witness :
  let w := mkWorld {[ "movie.mkv" := File ""; "movie.fra.0.srt" := File "old" ]} [] [] [] in
  fst (get_ffmpeg_track_id (calm_env fra_eng) (movie_args "fra,eng") "movie.mkv" w) = Ok tt /\
  spawned (snd (get_ffmpeg_track_id (calm_env fra_eng) (movie_args "fra,eng") "movie.mkv" w)) =
    [ffprobe_command "movie.mkv"; ffsubextract_command "movie.mkv" 1 "movie.eng.1.srt"].
Proof.
  cbv zeta.
  destruct (extractions_of_a_file (calm_env fra_eng) (movie_args "fra,eng") "movie.mkv"
              (mkWorld {[ "movie.mkv" := File ""; "movie.fra.0.srt" := File "old" ]} [] [] [])
              "{}" "" fra_eng) as [Hok Hcmds].
  - intros w' cmd errno msg. discriminate.
  - reflexivity.
  - reflexivity.
  - split; [exact Hok|]. rewrite Hcmds. vm_compute. reflexivity.
Defined.

(** ** Names the walk passes over *)


Lemma unsupported_extension stem e :
  has_char "." e = false ->
  mem ("." +:+ e) supported_extensions = false ->
  mem (snd (PosixPath.splitext (stem +:+ "." +:+ e))) supported_extensions = false.
Proof.
  intros He Hmem.
  destruct (PathFacts.splitext_ext (stem +:+ "." +:+ e)) as [-> | ->]; [reflexivity|].
  rewrite (PathFacts.after_last_dot stem e He). exact Hmem.
Qed.

(** X13. [process_movie] passes over every name whose extension is not one
    of the six of [supported_extensions], letter case included, with no
    probe and no output; so the walk never probes the .srt files the
    script writes. *)
Theorem process_movie_skips (E : Env) (args : Args) (root : option string)
    (stem e : string) (w : World) :
  has_char "." e = false -> has_char "/" e = false ->
  mem ("." +:+ e) supported_extensions = false ->
  process_movie E args root (stem +:+ "." +:+ e) w = (Ok tt, w).
Proof.
  intros He Hslash Hmem.
  assert (Hsplit : exists stem', snd (PosixPath.split (stem +:+ "." +:+ e)) =
                                 stem' +:+ "." +:+ e).
  { rewrite PathFacts.split_tail, PathFacts.after_last_app.
    - eexists. reflexivity.
    - simpl. exact Hslash. }
  assert (Hskip : forall (r name' : string),
            (exists stem', name' = stem' +:+ "." +:+ e) ->
            (let '(basename, ext) := PosixPath.splitext name' in
             if negb (mem ext supported_extensions) then ret tt
             else get_ffmpeg_track_id E args (PosixPath.join r name')) w = (Ok tt, w)).
  { intros r name' [stem' ->].
    pose proof (unsupported_extension stem' e He Hmem) as Hext.
    destruct (PosixPath.splitext (stem' +:+ "." +:+ e)) as [basename ext].
    cbn [snd] in Hext. rewrite Hext. reflexivity. }
  unfold process_movie.
  destruct root as [[|c r]|].
  - destruct (PosixPath.split (stem +:+ "." +:+ e)) as [r' name'] eqn:Hs.
    apply Hskip. exact Hsplit.
  - apply Hskip. eauto.
  - destruct (PosixPath.split (stem +:+ "." +:+ e)) as [r' name'] eqn:Hs.
    apply Hskip. exact Hsplit.
Qed.

Lemma process_movie_skips_witness :
  process_movie (calm_env fra_eng) (movie_args "fra") (Some "dir")
    ("movie.fra.0" +:+ "." +:+ "srt") movie_world = (Ok tt, movie_world) /\
  process_movie (calm_env fra_eng) (movie_args "fra") None
    ("dir/movie" +:+ "." +:+ "MKV") movie_world = (Ok tt, movie_world).
Proof.
  split.
  - apply (process_movie_skips (calm_env fra_eng) (movie_args "fra") (Some "dir")
             "movie.fra.0" "srt" movie_world); reflexivity.
  - apply (process_movie_skips (calm_env fra_eng) (movie_args "fra") None
             "dir/movie" "MKV" movie_world); reflexivity.
Defined.

(** ** The walk over the file list *)

Lemma for_each_nothing {A} (l : list A) (body : A -> M unit) w :
  (forall x, x ∈ l -> body x w = (Ok tt, w)) -> for_each l body w = (Ok tt, w).
Proof.
  induction l as [|x l IH]; intros H; [reflexivity|].
  cbn [for_each]. unfold bind. rewrite (H x) by left.
  apply IH. intros y Hy. apply H. right. exact Hy.
Qed.

(** X14. A pattern that matches nothing, or only names that are on disk
    neither as a file nor as a directory, is no error: the walk does
    nothing for it and goes on. *)
Theorem process_passes_over_missing (E : Env) (args : Args) (w : World) :
  (forall pattern name,
     pattern ∈ filelist args ->
     name ∈ glob E w (rstrip line_ends pattern) -> fs w !! name = None) ->
  process E args w = (Ok tt, w).
Proof.
  intros Hmissing. unfold process. apply for_each_nothing. intros pattern Hp.
  unfold bind at 1. apply for_each_nothing. intros name Hname.
  specialize (Hmissing pattern name Hp Hname).
  unfold bind, isfile, isdir. rewrite Hmissing. cbn beta iota. rewrite Hmissing.
  reflexivity.
Qed.

Lemma process_passes_over_missing_witness :
  process (calm_env fra_eng)
    (mkArgs ["nothing.mkv"; "*.mp4"] "fra" 0 false false false false) movie_world =
  (Ok tt, movie_world).
Proof.
  apply (process_passes_over_missing (calm_env fra_eng)
           (mkArgs ["nothing.mkv"; "*.mp4"] "fra" 0 false false false false) movie_world).
  intros pattern name Hp Hname.
  repeat (apply elem_of_cons in Hp as [-> | Hp];
          [apply list_elem_of_singleton in Hname as ->; reflexivity|]).
  inversion Hp.
Defined.

Lemma rstrip_only_chars chars t : only_chars chars t = true -> rstrip chars t = "".
Proof.
  induction t as [|c t IH]; [reflexivity|]. simpl. intros H.
  apply andb_true_iff in H as [Hc Ht]. rewrite (IH Ht), Hc. reflexivity.
Qed.

Lemma rstrip_app chars s t :
  only_chars chars t = true -> rstrip chars (s +:+ t) = rstrip chars s.
Proof.
  intros Ht. induction s as [|c s IH].
  - rewrite StrFacts.str_app_nil_l. apply rstrip_only_chars, Ht.
  - rewrite StrFacts.str_app_cons. simpl. rewrite IH. reflexivity.
Qed.

Lemma for_each_map {A B} (f : A -> B) (l : list A) (body : B -> M unit) : forall w,
  for_each (map f l) body w = for_each l (fun x => body (f x)) w.
Proof.
  induction l as [|x l IH]; intros w; [reflexivity|].
  cbn [map for_each]. unfold bind. destruct (body (f x) w) as [[[]|e] w1]; [apply IH|reflexivity].
Qed.

Lemma for_each_ext {A} (l : list A) (body1 body2 : A -> M unit) :
  (forall x w, body1 x w = body2 x w) ->
  forall w, for_each l body1 w = for_each l body2 w.
Proof.
  intros Hbody. induction l as [|x l IH]; intros w; [reflexivity|].
  cbn [for_each]. unfold bind. rewrite Hbody.
  destruct (body2 x w) as [[[]|e] w1]; [apply IH|reflexivity].
Qed.

(** The file list plays no part in what is done with one name. *)
Lemma process_movie_filelist E args l :
  process_movie E (set_filelist l args) = process_movie E args.
Proof. reflexivity. Qed.

(** X15. Carriage returns and line feeds at the end of a pattern do not
    count: a file list whose patterns carry such an ending is walked as
    the file list without it. *)
Theorem line_ends_ignored (E : Env) (args : Args) (l : list string) (ending : string)
    (w : World) :
  only_chars line_ends ending = true ->
  process E (set_filelist (map (fun pattern => pattern +:+ ending) l) args) w =
  process E (set_filelist l args) w.
Proof.
  intros Hending. unfold process. cbn [filelist set_filelist].
  rewrite !process_movie_filelist, for_each_map.
  apply for_each_ext. intros pattern w'.
  change (rstrip ["013"%char; "010"%char]) with (rstrip line_ends).
  rewrite (rstrip_app line_ends pattern ending Hending). reflexivity.
Qed.

Lemma line_ends_ignored_witness :
  process (calm_env fra_eng)
    (set_filelist (map (fun pattern => pattern +:+ String "013"%char (String "010"%char ""))
                     ["movie.mkv"]) (movie_args "fra")) movie_world =
  process (calm_env fra_eng) (set_filelist ["movie.mkv"] (movie_args "fra")) movie_world.
Proof.
  apply (line_ends_ignored (calm_env fra_eng) (movie_args "fra") ["movie.mkv"]
           (String "013"%char (String "010"%char "")) movie_world).
  reflexivity.
Defined.
